(** * find_breaks: the flat-run timeseries segmenter of the JWST
      engineering-data notebook

    The notebook function [find_breaks(x_data, y_data, max_flats=5)] scans two
    paired telemetry tables and cuts them into sub-series separated by
    stretches where neither reading changes.  This file embeds the function
    as it is written (Python [int]s as [Z], numpy indexing and pandas slicing
    with their out-of-range behaviour, exceptions as an error result) and
    settles the properties stated about it.

    Readings and MJD keys are modelled as exact integers: only equality and
    the sign of [|a - b|] are ever inspected by the scan (NaN readings are
    outside the model, and so are int64 readings so far apart that their
    difference wraps around; [small_readings] bounds the readings where a
    statement depends on the sign of a difference).  The final [print] of
    the function is not modelled. *)

From Stdlib Require Import String.
From Stdlib Require Import ZArith List Bool Lia Sorted.
Import ListNotations.
Open Scope Z_scope.

(** ** Python values and exceptions *)

(** The exceptions the function can raise.  [UnboundLocalError] is the
    subclass of [NameError] raised when a local variable is read before any
    assignment. *)
Inductive exn : Type :=
| ValueError
| IndexError
| UnboundLocalError.

Definition is_NameError (e : exn) : bool :=
  match e with
  | UnboundLocalError => true
  | _ => false
  end.

Inductive result (A : Type) : Type :=
| Ok (a : A)
| Raise (e : exn).

Arguments Ok {A} a.
Arguments Raise {A} e.

Definition bind {A B : Type} (c : result A) (k : A -> result B) : result B :=
  match c with
  | Ok a => k a
  | Raise e => Raise e
  end.

Notation "x <- c ;; k" := (bind c (fun x => k))
  (at level 61, c at next level, right associativity).

(** [len(a)] *)
Definition len {A : Type} (a : list A) : Z := Z.of_nat (length a).

(** [range(start, stop)] *)
Definition range (start stop : Z) : list Z :=
  map (fun j => start + Z.of_nat j) (seq 0 (Z.to_nat (stop - start))).

(** [a[i]] on a numpy array: a negative index counts from the end, an index
    out of bounds raises [IndexError]. *)
Definition getitem {A : Type} (a : list A) (i : Z) : result A :=
  let j := if i <? 0 then i + len a else i in
  if (j <? 0) || (len a <=? j) then Raise IndexError
  else match nth_error a (Z.to_nat j) with
       | Some v => Ok v
       | None => Raise IndexError
       end.

(** A slice bound is clamped into [0 .. len]; a negative bound counts from
    the end. *)
Definition clamp (n i : Z) : Z :=
  if i <? 0 then Z.max 0 (i + n) else Z.min i n.

(** [a[start:stop]] (positional, step 1); [stop = None] is [a[start:]]. *)
Definition slice {A : Type} (a : list A) (start : Z) (stop : option Z) : list A :=
  let lo := clamp (len a) start in
  let hi := match stop with
            | Some s => clamp (len a) s
            | None => len a
            end in
  firstn (Z.to_nat (hi - lo)) (skipn (Z.to_nat lo) a).

(** [for n in it: st = body(n, st)]: the body may raise; [continue] is an
    early [Ok]; the loop has no [break]. *)
Fixpoint for_each {S : Type} (it : list Z) (body : Z -> S -> result S) (st : S)
  : result S :=
  match it with
  | [] => Ok st
  | n :: it' => st' <- body n st ;; for_each it' body st'
  end.

(** The loop variable after the loop: bound to the last item, or unbound
    ([None]) when the body never ran. *)
Definition loop_var (it : list Z) : option Z := last (map Some it) None.

(** ** Tables *)

(** A row of an input table ([x_data] or [y_data]): the columns the function
    reads. *)
Record Reading : Type := mkReading {
  MJD : Z;
  theTime : string;
  euvalue : Z
}.

(** A row of [xy_frame].  [label] is the row's index label; a cell is [None]
    when it holds NaN (column not filled for that row). *)
Record Row : Type := mkRow {
  label : Z;
  row_MJD : option Z;
  timestamp : option string;
  x_value : option Z;
  y_value : option Z
}.

Definition DataFrame : Type := list Row.

(** [pd.DataFrame(data=dates, columns=['MJD'])]: a RangeIndex and one column. *)
Definition new_frame (dates : list Z) : DataFrame :=
  map (fun p => mkRow (fst p) (Some (snd p)) None None None)
      (combine (range 0 (len dates)) dates).

(** A row of NaN cells, as made by a reindex. *)
Definition nan_row (i : Z) : Row := mkRow i None None None None.

(** [frame[col] = value] for an array [value]; [put] writes the cell of
    column [col] in a row.  pandas first lets a frame that has no rows take
    its index from a non-empty value ([DataFrame._ensure_valid_index]: the
    frame is reindexed to [RangeIndex(len(value))], existing columns filled
    with NaN), then requires the lengths to match and raises [ValueError]
    when they do not. *)
Definition setitem {V : Type} (frame : DataFrame) (put : Row -> V -> Row)
  (value : list V) : result DataFrame :=
  let frame := if (len frame =? 0) && (0 <? len value)
               then map nan_row (range 0 (len value))
               else frame in
  if len value =? len frame
  then Ok (map (fun p => put (fst p) (snd p)) (combine frame value))
  else Raise ValueError.

Definition put_timestamp (r : Row) (v : string) : Row :=
  mkRow (label r) (row_MJD r) (Some v) (x_value r) (y_value r).
Definition put_x_value (r : Row) (v : Z) : Row :=
  mkRow (label r) (row_MJD r) (timestamp r) (Some v) (y_value r).
Definition put_y_value (r : Row) (v : Z) : Row :=
  mkRow (label r) (row_MJD r) (timestamp r) (x_value r) (Some v).

(** ** The scan *)

(** The local variables the loop updates: [results], [m] (start of the
    series being recorded), [flat] and [recording]. *)
Record State : Type := mkState {
  results : list DataFrame;
  m : Z;
  flat : Z;
  recording : bool
}.

Section Scan.

Variables x_vals x_dates y_vals y_dates : list Z.
Variable xy_frame : DataFrame.
Variable max_flats : Z.

(** The body of [for n in range(1, len(x_vals))]. *)
Definition body (n : Z) (st : State) : result State :=
  xd <- getitem x_dates n ;;
  yd <- getitem y_dates n ;;
  if xd =? yd then
    x0 <- getitem x_vals (n - 1) ;;
    x1 <- getitem x_vals n ;;
    let x_diff := Z.abs (x0 - x1) in
    y0 <- getitem y_vals (n - 1) ;;
    y1 <- getitem y_vals n ;;
    let y_diff := Z.abs (y0 - y1) in
    if (x_diff =? 0) && (y_diff =? 0) then
      let flat' := flat st + 1 in
      if negb (recording st) then
        Ok (mkState (results st) (m st) flat' (recording st))
      else if max_flats <=? flat' then
        let size := (n - max_flats) - m st in
        let results' :=
          if 1 <? size
          then results st ++ [slice xy_frame (m st) (Some (n - max_flats))]
          else results st in
        Ok (mkState results' (m st) flat' false)
      else
        Ok (mkState (results st) (m st) flat' (recording st))
    else if ((0 <? x_diff) || (0 <? y_diff)) && negb (recording st) then
      Ok (mkState (results st) n 0 true)
    else Ok st
  else Ok st.

(** [if recording and (n - m) > 1: results.append(xy_frame[m:])], with [n]
    the loop variable as the loop left it. *)
Definition capture_final (n : option Z) (st : State) : result (list DataFrame) :=
  if recording st then
    match n with
    | None => Raise UnboundLocalError
    | Some n =>
        if 1 <? n - m st
        then Ok (results st ++ [slice xy_frame (m st) None])
        else Ok (results st)
    end
  else Ok (results st).

End Scan.

Definition initial : State := mkState [] 0 0 true.

(** The combined table, built column by column. *)
Definition build_xy_frame (x_data y_data : list Reading) : result DataFrame :=
  let x_vals := map euvalue x_data in
  let x_dates := map MJD x_data in
  let y_vals := map euvalue y_data in
  let xy_frame := new_frame x_dates in
  xy_frame <- setitem xy_frame put_timestamp (map theTime x_data) ;;
  xy_frame <- setitem xy_frame put_x_value x_vals ;;
  setitem xy_frame put_y_value y_vals.

(** The scan over the first [upto] loop indices [1 .. upto]. *)
Definition scan_upto (x_data y_data : list Reading) (xy_frame : DataFrame)
  (max_flats upto : Z) : result State :=
  for_each (range 1 (upto + 1))
    (body (map euvalue x_data) (map MJD x_data)
          (map euvalue y_data) (map MJD y_data) xy_frame max_flats)
    initial.

Definition find_breaks (x_data y_data : list Reading) (max_flats : Z)
  : result (list DataFrame) :=
  let x_vals := map euvalue x_data in
  let x_dates := map MJD x_data in
  let y_vals := map euvalue y_data in
  let y_dates := map MJD y_data in
  xy_frame <- build_xy_frame x_data y_data ;;
  let it := range 1 (len x_vals) in
  st <- for_each it (body x_vals x_dates y_vals y_dates xy_frame max_flats)
          initial ;;
  capture_final xy_frame (loop_var it) st.

(** Test tables: readings with matching keys, built from value lists. *)
Definition table (vals : list Z) : list Reading :=
  map (fun p => mkReading (fst p) EmptyString (snd p))
      (combine (range 0 (len vals)) vals).

Definition labels (seg : DataFrame) : list Z := map label seg.

(** ** Samples by position, and what the loop body sees at an index *)

Definition no_reading : Reading := mkReading 0 EmptyString 0.

Definition reading_at (data : list Reading) (i : Z) : Reading :=
  nth (Z.to_nat i) data no_reading.

(** The alignment keys of the two series agree at index [i]. *)
Definition aligned (x y : list Reading) (i : Z) : bool :=
  MJD (reading_at x i) =? MJD (reading_at y i).

(** Neither reading changed between index [i - 1] and index [i]. *)
Definition unchanged (x y : list Reading) (i : Z) : bool :=
  (euvalue (reading_at x (i - 1)) =? euvalue (reading_at x i))
  && (euvalue (reading_at y (i - 1)) =? euvalue (reading_at y i)).

Inductive sample_kind : Type :=
| Misaligned
| Flat
| Changed.

Definition kind_at (x y : list Reading) (i : Z) : sample_kind :=
  if aligned x y i then
    if unchanged x y i then Flat else Changed
  else Misaligned.

(** The effect of the loop body on the state, by kind of sample. *)
Definition step (xy_frame : DataFrame) (max_flats : Z) (kd : sample_kind)
  (n : Z) (st : State) : State :=
  match kd with
  | Misaligned => st
  | Flat =>
      if negb (recording st) then
        mkState (results st) (m st) (flat st + 1) (recording st)
      else if max_flats <=? flat st + 1 then
        mkState
          (if 1 <? n - max_flats - m st
           then results st ++ [slice xy_frame (m st) (Some (n - max_flats))]
           else results st)
          (m st) (flat st + 1) false
      else mkState (results st) (m st) (flat st + 1) (recording st)
  | Changed =>
      if negb (recording st) then mkState (results st) n 0 true else st
  end.

(** The state after the loop indices [1 .. i], as a fold of [step]. *)
Definition state_at (x y : list Reading) (xy_frame : DataFrame) (max_flats i : Z)
  : State :=
  fold_left (fun st n => step xy_frame max_flats (kind_at x y n) n st)
            (range 1 (i + 1)) initial.

(** Whole-input conditions, as decidable checks. *)
Definition fully_aligned (x y : list Reading) : bool :=
  forallb (aligned x y) (range 0 (len x)).

Definition all_unchanged (x y : list Reading) : bool :=
  forallb (unchanged x y) (range 1 (len x)).

Definition all_changed (x y : list Reading) : bool :=
  forallb (fun i => negb (unchanged x y i)) (range 1 (len x)).

Definition is_flat (kd : sample_kind) : bool :=
  match kd with
  | Flat => true
  | _ => false
  end.

(** Number of flat (aligned, unchanged) samples at the indices [lo .. hi-1]. *)
Definition count_flat (x y : list Reading) (lo hi : Z) : Z :=
  len (filter (fun i => is_flat (kind_at x y i)) (range lo hi)).

(** ** Index ranges of the returned segments *)



(** Index [i] belongs to one of the segments. *)
Definition covered (segs : list DataFrame) (i : Z) : Prop :=
  exists s, In s segs /\ In i (labels s).

(** The segments are index ranges [a, b) with [a < b], each starting at or
    after the end of the one before it, all within [lo, hi). *)
Fixpoint chain (lo : Z) (segs : list DataFrame) (hi : Z) : Prop :=
  match segs with
  | [] => lo <= hi
  | s :: segs' =>
      exists a b, lo <= a /\ a < b /\ labels s = range a b /\ chain b segs' hi
  end.

(** Every index of [s] is below every index of [t]. *)
Definition before (s t : DataFrame) : Prop :=
  forall i j, In i (labels s) -> In j (labels t) -> i < j.

(** First row label of a segment. *)
Definition start_index (s : DataFrame) : Z := hd 0 (labels s).

(** Sample [j] is itself a flat or a misaligned sample of the scan. *)
Definition flat_or_misaligned (x y : list Reading) (j : Z) : Prop :=
  1 <= j /\ kind_at x y j <> Changed.

(** Sample [j] is at most [max_flats + 1] positions before a flat sample
    [c] that the scan has reached. *)
Definition near_flat (x y : list Reading) (max_flats upto j : Z) : Prop :=
  exists c, j < c /\ c <= j + max_flats + 1 /\ c <= upto
            /\ kind_at x y c = Flat.


(** ** Reading results *)

(** The row labels of each returned segment. *)
Definition index_ranges (r : result (list DataFrame)) : result (list (list Z)) :=
  match r with
  | Ok segs => Ok (map labels segs)
  | Raise e => Raise e
  end.

(** The combined table of two series, empty when it cannot be built. *)
Definition frame_of (x y : list Reading) : DataFrame :=
  match build_xy_frame x y with
  | Ok frame => frame
  | Raise _ => []
  end.

(** A series with a single repeat at index 2 and a double repeat at
    indices 5 and 6. *)
Definition stepped : list Reading := table [0; 1; 1; 2; 3; 3; 3; 4; 5; 6].

(** ** Stated properties, as they are worded *)

(** "Every consecutive pair unchanged: the result is empty." *)
Definition flat_input_yields_nothing : Prop :=
  forall x y k,
    length x = length y -> fully_aligned x y = true ->
    all_unchanged x y = true -> 1 <= k ->
    find_breaks x y k = Ok [].

(** "A run of exactly [max_flats - 1] flat samples never closes the active
    segment", whatever happened earlier in the segment. *)
Definition short_run_keeps_recording : Prop :=
  forall x y frame k a st st',
    length x = length y -> fully_aligned x y = true ->
    1 <= k -> 0 <= a -> a + (k - 1) < len x ->
    scan_upto x y frame k a = Ok st -> recording st = true ->
    (forall i, a < i <= a + (k - 1) -> unchanged x y i = true) ->
    (1 <= a -> unchanged x y a = false) ->
    (a + k < len x -> unchanged x y (a + k) = false) ->
    scan_upto x y frame k (a + (k - 1)) = Ok st' ->
    recording st' = true.

(** "A run of exactly [max_flats] flat samples always closes it." *)
Definition full_run_stops_recording : Prop :=
  forall x y frame k a st st',
    length x = length y -> fully_aligned x y = true ->
    1 <= k -> 0 <= a -> a + k < len x ->
    scan_upto x y frame k a = Ok st -> recording st = true ->
    (forall i, a < i <= a + k -> unchanged x y i = true) ->
    scan_upto x y frame k (a + k) = Ok st' ->
    recording st' = false.

Definition flat_run_boundary : Prop :=
  short_run_keeps_recording /\ full_run_stops_recording.

(** "A non-positive [max_flats] is refused with an invalid-argument error." *)
Definition nonpositive_max_flats_refused : Prop :=
  forall x y k, k < 1 -> find_breaks x y k = Raise ValueError.

(** "Series of unequal length are refused with an invalid-argument error." *)
Definition unequal_lengths_refused : Prop :=
  forall x y k, length x <> length y -> find_breaks x y k = Raise ValueError.


(** ** The loop invariant (for [max_flats >= 1]) *)

Record scan_inv (x y : list Reading) (max_flats i : Z) (st : State) : Prop := {
  inv_m : 0 <= m st <= i;
  inv_flat : recording st = true ->
             flat st = count_flat x y (m st + 1) (i + 1) /\ flat st < max_flats;
  inv_chain : chain 0 (results st) (if recording st then m st else i);
  inv_gaps : forall j, 0 <= j <= i ->
             covered (results st) j \/ flat_or_misaligned x y j
             \/ near_flat x y max_flats i j
             \/ (recording st = true /\ m st <= j)
}.

(** ** What a returned segment is made of *)

(** Row [r] is the combined record of the sample at index [label r]: the
    MJD, time stamp and reading of [x_data], and the reading of [y_data]. *)
Definition row_of (x y : list Reading) (r : Row) : Prop :=
  0 <= label r < len x
  /\ row_MJD r = Some (MJD (reading_at x (label r)))
  /\ timestamp r = Some (theTime (reading_at x (label r)))
  /\ x_value r = Some (euvalue (reading_at x (label r)))
  /\ y_value r = Some (euvalue (reading_at y (label r))).

(** Segment [s] starts at the first sample or at a sample that changed. *)
Definition starts_at_change (x y : list Reading) (s : DataFrame) : Prop :=
  start_index s = 0 \/ kind_at x y (start_index s) = Changed.

(** Every index of [s] is more than [g] below every index of [t]. *)
Definition apart (g : Z) (s t : DataFrame) : Prop :=
  forall i j, In i (labels s) -> In j (labels t) -> i + g < j.

(** A stored segment: rows [a .. b-1] of the table, at least two of them,
    starting at the first sample or at a changed one. *)
Definition seg_ok (x y : list Reading) (frame s : DataFrame) : Prop :=
  exists a b,
    0 <= a /\ a + 2 <= b /\ b <= len x
    /\ labels s = range a b /\ incl s frame
    /\ (a = 0 \/ kind_at x y a = Changed).

(** The part of the loop invariant that holds for every [max_flats]. *)
Record scan_inv_any (x y : list Reading) (frame : DataFrame)
  (max_flats i : Z) (st : State) : Prop := {
  any_m : 0 <= m st <= i;
  any_start : m st = 0 \/ kind_at x y (m st) = Changed;
  any_segs : Forall (seg_ok x y frame) (results st);
  any_pairs : ForallOrdPairs (apart (max_flats + 1)) (results st);
  any_bound : forall s j, In s (results st) -> In j (labels s) ->
              j + (max_flats + 1) < (if recording st then m st else i + 1)
}.

(** Segment [s] holds fewer than [max_flats] flat samples after its first
    row. *)
Definition few_flats (x y : list Reading) (max_flats : Z) (s : DataFrame)
  : Prop :=
  exists a b, a < b /\ labels s = range a b
              /\ count_flat x y (a + 1) b < max_flats.

(** ** download_edb_datafiles: fetching the data files *)

(** Exceptions of the download: [urllib.error.HTTPError], the only one the
    function catches, and any other exception, by class name. *)
Inductive io_exn : Type :=
| HTTPError
| OtherError (name : string).

(** What the function does to the outside world, in order: the directory it
    makes, the files it requests (with the exception each request raised,
    if any) and the lines it prints. *)
Inductive event : Type :=
| Mkdir (folder : string) (raised : option io_exn)
| Urlretrieve (url filename : string) (raised : option io_exn)
| Print (text : string).

Inductive outcome (A : Type) : Type :=
| Returns (a : A)
| Raises (e : io_exn).

Arguments Returns {A} a.
Arguments Raises {A} e.

(** An action: the events it produced and how it ended. *)
Definition io (A : Type) : Type := (list event * outcome A)%type.

Definition io_ret {A : Type} (a : A) : io A := ([], Returns a).

Definition io_bind {A B : Type} (c : io A) (k : A -> io B) : io B :=
  match snd c with
  | Returns a => (fst c ++ fst (k a), snd (k a))
  | Raises e => (fst c, Raises e)
  end.

Notation "x <~ c ;; k" := (io_bind c (fun x => k))
  (at level 61, c at next level, right associativity).

(** [try: c except urllib.error.HTTPError: handler] *)
Definition except_HTTPError {A : Type} (c handler : io A) : io A :=
  match snd c with
  | Raises HTTPError => (fst c ++ fst handler, snd handler)
  | _ => c
  end.

(** The outside world: whether [mkdir] on a folder raises, and what the
    [i]-th request of the call raises, given its URL and target file. *)
Record World : Type := mkWorld {
  mkdir_raises : string -> option io_exn;
  request_raises : nat -> string -> string -> option io_exn
}.

Section Download.

Variable world : World.

(** [Path(folder).mkdir(exist_ok=True)] *)
Definition mkdir (folder : string) : io unit :=
  match mkdir_raises world folder with
  | None => ([Mkdir folder None], Returns tt)
  | Some e => ([Mkdir folder (Some e)], Raises e)
  end.

(** [urllib.request.urlretrieve(url, filename=filename)], as request number
    [i] of the call. *)
Definition urlretrieve (i : nat) (url filename : string) : io unit :=
  match request_raises world i url filename with
  | None => ([Urlretrieve url filename None], Returns tt)
  | Some e => ([Urlretrieve url filename (Some e)], Raises e)
  end.

(** [print(text)]; [text] holds the whole output of the call. *)
Definition print (text : string) : io unit := ([Print text], Returns tt).

(** [urlStr.format(prefix, fname)] *)
Definition url_of (prefix fname : string) : string :=
  ("https://mast.stsci.edu" ++ prefix
   ++ "/api/v0.1/Download/file?uri=mast:jwstedb/" ++ fname)%string.

(** The target file, [f"{folder}/{fname}"]. *)
Definition target_of (folder fname : string) : string :=
  (folder ++ "/" ++ fname)%string.

Definition newline : string := String (Ascii.ascii_of_nat 10) EmptyString.

(** The loop [for fname in filenames], from request number [i] on. *)
Fixpoint download_loop (folder prefix : string) (filenames : list string)
  (i : nat) (status : Z) : io Z :=
  match filenames with
  | [] => io_ret status
  | fname :: rest =>
      _ <~ print ("Downloading File: mast:jwstedb/" ++ fname ++ newline
                  ++ " " ++ " To: " ++ target_of folder fname ++ newline) ;;
      let url := url_of prefix fname in
      status <~ except_HTTPError
                  (_ <~ urlretrieve i url (target_of folder fname) ;;
                   io_ret status)
                  (_ <~ print ("  ***Error downloading file***" ++ newline) ;;
                   io_ret 1) ;;
      download_loop folder prefix rest (S i) status
  end.

Definition download_edb_datafiles (filenames : list string)
  (folder prefix : string) : io Z :=
  _ <~ mkdir folder ;;
  download_loop folder prefix filenames 0 0.

End Download.

(** The requests among some events, in order: URL and target file. *)
Definition requests (evs : list event) : list (string * string) :=
  flat_map (fun ev => match ev with
                      | Urlretrieve url filename _ => [(url, filename)]
                      | _ => []
                      end) evs.

(** Some request among the events raised. *)
Definition any_request_failed (evs : list event) : bool :=
  existsb (fun ev => match ev with
                     | Urlretrieve _ _ (Some _) => true
                     | _ => false
                     end) evs.

(** The world lets each of the listed files be fetched or answers with an
    HTTP error, counting requests from [i]. *)
Definition only_http_errors (world : World) (folder prefix : string)
  (filenames : list string) (i : nat) : Prop :=
  forall j fname,
    nth_error filenames j = Some fname ->
    request_raises world (i + j) (url_of prefix fname)
      (target_of folder fname) = None
    \/ request_raises world (i + j) (url_of prefix fname)
         (target_of folder fname) = Some HTTPError.

(** A world in which the second request of a call is answered with an
    HTTP error, and one in which it fails for another reason. *)
Definition second_request_404 : World :=
  mkWorld (fun _ => None)
          (fun i _ _ => match i with
                        | 1%nat => Some HTTPError
                        | _ => None
                        end).

Definition second_request_unreachable : World :=
  mkWorld (fun _ => None)
          (fun i _ _ => match i with
                        | 1%nat => Some (OtherError "URLError")
                        | _ => None
                        end).

(** ** plot_x_v_y_color: the ticks of the colour bar *)

(** [range(start, stop, step)]; a zero step raises [ValueError]. *)
Definition range_step (start stop step : Z) : result (list Z) :=
  if step =? 0 then Raise ValueError
  else
    let count := if 0 <? step
                 then (stop - start + step - 1) / step
                 else (start - stop - step - 1) / (- step) in
    Ok (map (fun j => start + Z.of_nat j * step) (seq 0 (Z.to_nat count))).

Definition n_ticks : Z := 10.

(** [indices = list(range(0, len(mjd), int(len(mjd)/n_ticks)))].  The
    quotient [len(mjd)/n_ticks] is a float that [int] truncates; for a
    length below 2^53 this is the integer quotient. *)
Definition tick_indices (data : DataFrame) : result (list Z) :=
  let mjd := map row_MJD data in
  range_step 0 (len mjd) (len mjd / n_ticks).

(** Equality of two MJD cells as dictionary keys; NaN equals nothing. *)
Definition key_eqb (a b : option Z) : bool :=
  match a, b with
  | Some u, Some v => u =? v
  | _, _ => false
  end.

(** [d[k] = v] on a dictionary kept in insertion order. *)
Fixpoint dict_set (d : list (option Z * option string)) (k : option Z)
  (v : option string) : list (option Z * option string) :=
  match d with
  | [] => [(k, v)]
  | (k', v') :: d' =>
      if key_eqb k' k then (k', v) :: d' else (k', v') :: dict_set d' k v
  end.

(** [{mjd.values[x]: data['timestamp'].values[x] for x in indices}], added
    to [d]. *)
Fixpoint tick_dict_from (data : DataFrame) (indices : list Z)
  (d : list (option Z * option string))
  : result (list (option Z * option string)) :=
  match indices with
  | [] => Ok d
  | x :: rest =>
      k <- getitem (map row_MJD data) x ;;
      v <- getitem (map timestamp data) x ;;
      tick_dict_from data rest (dict_set d k v)
  end.

(** The tick table of the colour bar: MJD value to time stamp. *)
Definition tick_dict (data : DataFrame)
  : result (list (option Z * option string)) :=
  indices <- tick_indices data ;;
  tick_dict_from data indices [].

(** A table of [n] rows with distinct MJD values. *)
Definition plain_frame (n : Z) : DataFrame :=
  map (fun i => mkRow i (Some (100 + i)) (Some EmptyString) (Some i) (Some i))
      (range 0 n).

(** The row at position [i] of a table. *)
Definition row_at (data : DataFrame) (i : Z) : Row :=
  nth (Z.to_nat i) data (nan_row 0).

(** No two rows of the table have equal MJD keys. *)
Definition keys_distinct (data : DataFrame) : bool :=
  forallb (fun j =>
             forallb (fun i => negb (key_eqb (row_MJD (row_at data i))
                                             (row_MJD (row_at data j))))
                     (range 0 j))
          (range 0 (len data)).

(** ** Conditions on the input of the scan *)

(** A 64-bit signed integer operation keeps the low 64 bits of the exact
    result. *)
Definition wrap64 (z : Z) : Z := (z + 2 ^ 63) mod 2 ^ 64 - 2 ^ 63.

(** [np.abs(a - b)] on int64 values: both the difference and the absolute
    value wrap around. *)
Definition int64_abs_diff (a b : Z) : Z := wrap64 (Z.abs (wrap64 (a - b))).

(** Every reading lies in [-2^62, 2^62): the difference of two readings
    then fits a 64-bit integer, and [np.abs] of it is its absolute value. *)
Definition small_readings (data : list Reading) : bool :=
  forallb (fun r => (- 2 ^ 62 <=? euvalue r) && (euvalue r <? 2 ^ 62)) data.


(** * Proofs *)

(** ** Ranges *)

Lemma len_nonneg {A : Type} (a : list A) : 0 <= len a.
Proof. unfold len. lia. Qed.

Lemma len_map {A B : Type} (f : A -> B) (a : list A) : len (map f a) = len a.
Proof. unfold len. now rewrite length_map. Qed.

Lemma len_app {A : Type} (a b : list A) : len (a ++ b) = len a + len b.
Proof. unfold len. rewrite length_app. lia. Qed.

Lemma range_empty (a b : Z) : b <= a -> range a b = [].
Proof.
  intros H. unfold range.
  replace (Z.to_nat (b - a)) with 0%nat by lia. reflexivity.
Qed.

Lemma range_snoc (a b : Z) : a <= b -> range a (b + 1) = range a b ++ [b].
Proof.
  intros H. unfold range.
  replace (Z.to_nat (b + 1 - a)) with (S (Z.to_nat (b - a))) by lia.
  rewrite seq_S, map_app. cbn [map Nat.add]. do 2 f_equal. lia.
Qed.

Lemma map_seq_from (f : nat -> Z) (s n : nat) :
  map f (seq s n) = map (fun j => f (s + j)%nat) (seq 0 n).
Proof.
  revert s. induction n as [|n IH]; intros s; [reflexivity|].
  cbn [seq map]. rewrite Nat.add_0_r. f_equal.
  rewrite (IH (S s)), <- seq_shift, map_map. apply map_ext. intros j.
  f_equal. lia.
Qed.

Lemma range_app (a b c : Z) :
  a <= b -> b <= c -> range a c = range a b ++ range b c.
Proof.
  intros Hab Hbc. unfold range.
  replace (Z.to_nat (c - a)) with (Z.to_nat (b - a) + Z.to_nat (c - b))%nat by lia.
  rewrite seq_app, map_app. f_equal.
  rewrite map_seq_from. apply map_ext. intros j. lia.
Qed.

Lemma range_cons (a b : Z) : a < b -> range a b = a :: range (a + 1) b.
Proof.
  intros H. rewrite (range_app a (a + 1) b) by lia.
  unfold range at 1. replace (Z.to_nat (a + 1 - a)) with 1%nat by lia.
  cbn. f_equal. f_equal. lia.
Qed.

Lemma In_range (a b i : Z) : In i (range a b) <-> a <= i < b.
Proof.
  unfold range. rewrite in_map_iff. split.
  - intros (j & <- & Hj). apply in_seq in Hj. lia.
  - intros H. exists (Z.to_nat (i - a)). split; [lia|].
    apply in_seq. lia.
Qed.

Lemma len_range (a b : Z) : len (range a b) = Z.max 0 (b - a).
Proof. unfold range, len. rewrite length_map, length_seq. lia. Qed.

Lemma forallb_range (f : Z -> bool) (a b : Z) :
  forallb f (range a b) = true <-> forall i, a <= i < b -> f i = true.
Proof.
  rewrite forallb_forall. split; intros H i Hi; apply H; now apply In_range.
Qed.

Lemma loop_var_range (b : Z) : 1 < b -> loop_var (range 1 b) = Some (b - 1).
Proof.
  intros H. replace b with ((b - 1) + 1) at 1 by lia.
  rewrite range_snoc by lia. unfold loop_var.
  rewrite map_app. cbn [map]. apply last_last.
Qed.

(** ** Indexing and slicing *)

Lemma getitem_map {A B : Type} (f : A -> B) (a : list A) (d : A) (i : Z) :
  0 <= i < len a -> getitem (map f a) i = Ok (f (nth (Z.to_nat i) a d)).
Proof.
  intros H. unfold getitem. rewrite len_map.
  destruct (i <? 0) eqn:E; [lia|].
  destruct (i <? 0) eqn:E1; [lia|].
  destruct (len a <=? i) eqn:E2; [lia|]. cbn [orb].
  rewrite (nth_error_nth' (map f a) (f d)).
  - now rewrite map_nth.
  - rewrite length_map. unfold len in H. lia.
Qed.

Lemma labels_slice (frame : DataFrame) (a : Z) (b : option Z) :
  labels (slice frame a b) = slice (labels frame) a b.
Proof.
  unfold labels, slice. rewrite len_map.
  now rewrite skipn_map, firstn_map.
Qed.

Lemma slice_range (L a b : Z) :
  0 <= a -> a <= b -> b <= L -> slice (range 0 L) a (Some b) = range a b.
Proof.
  intros Ha Hab HbL.
  rewrite (range_app 0 a L), (range_app a b L) by lia.
  unfold slice. rewrite !len_app, !len_range.
  unfold clamp.
  destruct (a <? 0) eqn:E1; [lia|]. destruct (b <? 0) eqn:E2; [lia|].
  rewrite skipn_app.
  replace (length (range 0 a)) with (Z.to_nat (len (range 0 a))) by (unfold len; lia).
  rewrite len_range.
  rewrite (skipn_all2 (range 0 a)) by
    (replace (length (range 0 a)) with (Z.to_nat (len (range 0 a)))
       by (unfold len; lia); rewrite len_range; lia).
  cbn [app].
  replace (Z.to_nat (Z.min a (Z.max 0 (a - 0) + (Z.max 0 (b - a) + Z.max 0 (L - b)))) - Z.to_nat (Z.max 0 (a - 0)))%nat
    with 0%nat by lia.
  cbn [skipn].
  rewrite firstn_app.
  replace (length (range a b)) with (Z.to_nat (len (range a b))) by (unfold len; lia).
  rewrite len_range.
  match goal with |- firstn ?n _ ++ firstn ?k _ = _ =>
    replace k with 0%nat by lia; replace n with (length (range a b))
      by (replace (length (range a b)) with (Z.to_nat (len (range a b)))
            by (unfold len; lia); rewrite len_range; lia)
  end.
  rewrite firstn_all. cbn [firstn]. apply app_nil_r.
Qed.

Lemma slice_range_tail (L a : Z) :
  0 <= a -> a <= L -> slice (range 0 L) a None = range a L.
Proof.
  intros Ha HaL.
  rewrite (range_app 0 a L) by lia.
  unfold slice. rewrite !len_app, !len_range. unfold clamp.
  destruct (a <? 0) eqn:E1; [lia|].
  rewrite skipn_app.
  rewrite (skipn_all2 (range 0 a)) by
    (replace (length (range 0 a)) with (Z.to_nat (len (range 0 a)))
       by (unfold len; lia); rewrite len_range; lia).
  replace (length (range 0 a)) with (Z.to_nat (len (range 0 a))) by (unfold len; lia).
  rewrite len_range. cbn [app].
  match goal with |- firstn ?n (skipn ?k _) = _ =>
    replace k with 0%nat by lia; replace n with (length (range a L))
      by (replace (length (range a L)) with (Z.to_nat (len (range a L)))
            by (unfold len; lia); rewrite len_range; lia)
  end.
  cbn [skipn]. apply firstn_all.
Qed.

(** ** Building the combined table *)

Lemma map_fst_combine_same {A B : Type} (a : list A) (b : list B) :
  length a = length b -> map fst (combine a b) = a.
Proof.
  revert b. induction a as [|u a IH]; intros [|v b] H;
    try reflexivity; try discriminate.
  cbn. f_equal. apply IH. now injection H.
Qed.

Lemma labels_new_frame (dates : list Z) :
  labels (new_frame dates) = range 0 (len dates).
Proof.
  unfold labels, new_frame. rewrite map_map. cbn [label].
  change (map (fun p : Z * Z => fst p)) with (map (@fst Z Z)).
  apply map_fst_combine_same.
  unfold range, len. rewrite length_map, length_seq. lia.
Qed.

Lemma len_labels (frame : DataFrame) : len (labels frame) = len frame.
Proof. apply len_map. Qed.

Lemma setitem_same_len {V : Type} (frame : DataFrame) (put : Row -> V -> Row)
  (value : list V) :
  len value = len frame ->
  (forall r v, label (put r v) = label r) ->
  exists frame', setitem frame put value = Ok frame'
                 /\ labels frame' = labels frame.
Proof.
  intros Hlen Hput. unfold setitem.
  assert ((len frame =? 0) && (0 <? len value) = false) as ->.
  { destruct (len frame =? 0) eqn:E; [|reflexivity].
    destruct (0 <? len value) eqn:E'; [lia|reflexivity]. }
  rewrite (proj2 (Z.eqb_eq _ _) Hlen).
  eexists. split; [reflexivity|].
  unfold labels. rewrite map_map.
  rewrite (map_ext _ (fun p => label (fst p))) by (intros p; apply Hput).
  rewrite <- (map_map fst label). f_equal.
  apply map_fst_combine_same. unfold len in Hlen. lia.
Qed.

Lemma setitem_mismatch {V : Type} (frame : DataFrame) (put : Row -> V -> Row)
  (value : list V) :
  0 < len frame -> len value <> len frame ->
  setitem frame put value = Raise ValueError.
Proof.
  intros Hpos Hne. unfold setitem.
  destruct (len frame =? 0) eqn:E; [lia|]. cbn [andb].
  destruct (len value =? len frame) eqn:E'; [lia|reflexivity].
Qed.

Lemma setitem_empty_frame {V : Type} (put : Row -> V -> Row) (value : list V) :
  exists frame', setitem [] put value = Ok frame'.
Proof.
  unfold setitem. change (len (@nil Row)) with 0. cbn [Z.eqb andb].
  destruct (0 <? len value) eqn:E.
  - rewrite len_map, len_range.
    destruct (len value =? Z.max 0 (len value - 0)) eqn:E'; [|lia].
    eexists; reflexivity.
  - pose proof (len_nonneg value). change (len (@nil Row)) with 0.
    destruct (len value =? 0) eqn:E'; [|lia].
    eexists; reflexivity.
Qed.

Lemma build_xy_frame_ok (x y : list Reading) :
  length x = length y ->
  exists frame, build_xy_frame x y = Ok frame
                /\ labels frame = range 0 (len x).
Proof.
  intros Hlen. unfold build_xy_frame.
  destruct (setitem_same_len (new_frame (map MJD x)) put_timestamp
              (map theTime x)) as (f1 & -> & L1); [|reflexivity|].
  { now rewrite <- len_labels, labels_new_frame, len_range, !len_map, Z.sub_0_r,
      Z.max_r by apply len_nonneg. }
  cbn [bind].
  assert (len f1 = len x) as Hf1.
  { rewrite <- len_labels, L1, labels_new_frame, len_range, len_map.
    pose proof (len_nonneg x). lia. }
  destruct (setitem_same_len f1 put_x_value (map euvalue x))
    as (f2 & -> & L2); [|reflexivity|].
  { now rewrite len_map. }
  cbn [bind].
  destruct (setitem_same_len f2 put_y_value (map euvalue y))
    as (f3 & -> & L3); [|reflexivity|].
  { rewrite len_map, <- len_labels, L2, len_labels, Hf1. unfold len. lia. }
  exists f3. split; [reflexivity|].
  now rewrite L3, L2, L1, labels_new_frame, len_map.
Qed.

Lemma build_xy_frame_mismatch (x y : list Reading) :
  length x <> length y -> x <> [] ->
  build_xy_frame x y = Raise ValueError.
Proof.
  intros Hne Hx. unfold build_xy_frame.
  destruct (setitem_same_len (new_frame (map MJD x)) put_timestamp
              (map theTime x)) as (f1 & -> & L1); [|reflexivity|].
  { now rewrite <- len_labels, labels_new_frame, len_range, !len_map, Z.sub_0_r,
      Z.max_r by apply len_nonneg. }
  cbn [bind].
  assert (len f1 = len x) as Hf1.
  { rewrite <- len_labels, L1, labels_new_frame, len_range, len_map.
    pose proof (len_nonneg x). lia. }
  destruct (setitem_same_len f1 put_x_value (map euvalue x))
    as (f2 & -> & L2); [|reflexivity|].
  { now rewrite len_map. }
  cbn [bind].
  assert (len f2 = len x) as Hf2.
  { now rewrite <- len_labels, L2, len_labels. }
  apply setitem_mismatch.
  - rewrite Hf2. destruct x; [congruence|]. unfold len. cbn. lia.
  - rewrite len_map, Hf2. unfold len. lia.
Qed.

Lemma build_xy_frame_empty_x (y : list Reading) :
  exists frame, build_xy_frame [] y = Ok frame.
Proof. unfold build_xy_frame. cbn. apply setitem_empty_frame. Qed.

(** ** The loop body, by kind of sample *)

Lemma abs_diff_eqb (a b : Z) : (Z.abs (a - b) =? 0) = (a =? b).
Proof. destruct (a =? b) eqn:E; lia. Qed.

Lemma abs_diff_ltb (a b : Z) : (0 <? Z.abs (a - b)) = negb (a =? b).
Proof. destruct (a =? b) eqn:E; cbn; lia. Qed.

Lemma body_step (x y : list Reading) (frame : DataFrame) (k n : Z) (st : State) :
  length x = length y -> 1 <= n < len x ->
  body (map euvalue x) (map MJD x) (map euvalue y) (map MJD y) frame k n st
  = Ok (step frame k (kind_at x y n) n st).
Proof.
  intros Hlen Hn.
  assert (len y = len x) as Hy by (unfold len; lia).
  unfold body.
  rewrite !(getitem_map _ _ no_reading) by lia.
  cbn [bind]. fold (reading_at x n) (reading_at y n)
    (reading_at x (n - 1)) (reading_at y (n - 1)).
  rewrite !abs_diff_eqb, !abs_diff_ltb.
  unfold kind_at, aligned, unchanged.
  destruct (MJD (reading_at x n) =? MJD (reading_at y n)); [|reflexivity].
  destruct (euvalue (reading_at x (n - 1)) =? euvalue (reading_at x n));
    destruct (euvalue (reading_at y (n - 1)) =? euvalue (reading_at y n));
    cbn [andb orb negb step];
    destruct (recording st); cbn [negb andb]; try reflexivity;
    destruct (k <=? flat st + 1); reflexivity.
Qed.

Lemma for_each_steps (x y : list Reading) (frame : DataFrame) (k : Z)
  (it : list Z) (st : State) :
  length x = length y ->
  (forall n, In n it -> 1 <= n < len x) ->
  for_each it
    (body (map euvalue x) (map MJD x) (map euvalue y) (map MJD y) frame k) st
  = Ok (fold_left (fun st n => step frame k (kind_at x y n) n st) it st).
Proof.
  intros Hlen. revert st. induction it as [|n it IH]; intros st Hit.
  - reflexivity.
  - cbn [for_each fold_left]. rewrite body_step by (auto using in_eq).
    cbn [bind]. apply IH. intros n' Hn'. apply Hit. now right.
Qed.

Lemma scan_upto_state_at (x y : list Reading) (frame : DataFrame) (k i : Z) :
  length x = length y -> i < len x ->
  scan_upto x y frame k i = Ok (state_at x y frame k i).
Proof.
  intros Hlen Hi. unfold scan_upto, state_at.
  apply for_each_steps; [assumption|].
  intros n Hn. apply In_range in Hn. lia.
Qed.

Lemma state_at_0 (x y : list Reading) (frame : DataFrame) (k : Z) :
  state_at x y frame k 0 = initial.
Proof. reflexivity. Qed.

Lemma state_at_succ (x y : list Reading) (frame : DataFrame) (k i : Z) :
  0 <= i ->
  state_at x y frame k (i + 1)
  = step frame k (kind_at x y (i + 1)) (i + 1) (state_at x y frame k i).
Proof.
  intros Hi. unfold state_at.
  rewrite (range_snoc 1 (i + 1)) by lia.
  now rewrite fold_left_app.
Qed.

Lemma find_breaks_unfold (x y : list Reading) (k : Z) :
  length x = length y -> 2 <= len x ->
  exists frame,
    build_xy_frame x y = Ok frame
    /\ labels frame = range 0 (len x)
    /\ find_breaks x y k
       = capture_final frame (Some (len x - 1))
           (state_at x y frame k (len x - 1)).
Proof.
  intros Hlen H2.
  destruct (build_xy_frame_ok x y Hlen) as (frame & Hb & Hl).
  exists frame. repeat split; try assumption.
  unfold find_breaks. rewrite Hb. cbn [bind]. rewrite len_map.
  rewrite for_each_steps; [|assumption|].
  - cbn [bind]. rewrite loop_var_range by lia.
    unfold state_at. now replace (len x - 1 + 1) with (len x) by lia.
  - intros n Hn. apply In_range in Hn. lia.
Qed.

(** ** Subsequences and chains of index ranges *)





Lemma chain_le (lo hi : Z) (segs : list DataFrame) :
  chain lo segs hi -> lo <= hi.
Proof.
  revert lo. induction segs as [|s segs IH]; intros lo H; cbn in H.
  - exact H.
  - destruct H as (a & b & Ha & Hab & _ & Hc). apply IH in Hc. lia.
Qed.

Lemma chain_weaken (lo hi hi' : Z) (segs : list DataFrame) :
  chain lo segs hi -> hi <= hi' -> chain lo segs hi'.
Proof.
  revert lo. induction segs as [|s segs IH]; intros lo H Hle; cbn in *.
  - lia.
  - destruct H as (a & b & Ha & Hab & Hs & Hc).
    exists a, b. repeat split; auto.
Qed.

Lemma chain_snoc (lo hi hi' a b : Z) (segs : list DataFrame) (s : DataFrame) :
  chain lo segs hi -> hi <= a -> a < b -> b <= hi' ->
  labels s = range a b ->
  chain lo (segs ++ [s]) hi'.
Proof.
  revert lo. induction segs as [|t segs IH]; intros lo H Ha Hab Hb Hs; cbn in *.
  - exists a, b. repeat split; auto; lia.
  - destruct H as (a' & b' & Ha' & Hab' & Ht & Hc).
    exists a', b'. repeat split; auto.
Qed.

Lemma chain_covered (lo hi i : Z) (segs : list DataFrame) :
  chain lo segs hi -> covered segs i -> lo <= i < hi.
Proof.
  revert lo. induction segs as [|s segs IH]; intros lo H (t & Ht & Hi).
  - destruct Ht.
  - cbn in H. destruct H as (a & b & Ha & Hab & Hs & Hc).
    pose proof (chain_le _ _ _ Hc) as Hle.
    destruct Ht as [<-|Ht].
    + rewrite Hs in Hi. apply In_range in Hi. lia.
    + assert (b <= i < hi) by (apply (IH b Hc); exists t; auto). lia.
Qed.


Lemma chain_ranges (lo hi : Z) (segs : list DataFrame) :
  chain lo segs hi ->
  Forall (fun s => exists a b, lo <= a /\ a < b /\ b <= hi
                               /\ labels s = range a b) segs.
Proof.
  revert lo. induction segs as [|s segs IH]; intros lo H; cbn in H.
  - constructor.
  - destruct H as (a & b & Ha & Hab & Hs & Hc).
    pose proof (chain_le _ _ _ Hc) as Hle.
    constructor.
    + exists a, b. auto.
    + eapply Forall_impl; [|apply (IH b Hc)].
      cbn. intros t (a' & b' & H1 & H2 & H3 & H4).
      exists a', b'. repeat split; auto; lia.
Qed.

Lemma chain_before (lo hi : Z) (segs : list DataFrame) :
  chain lo segs hi -> ForallOrdPairs before segs.
Proof.
  revert lo. induction segs as [|s segs IH]; intros lo H; cbn in H.
  - constructor.
  - destruct H as (a & b & Ha & Hab & Hs & Hc).
    constructor; [|now apply (IH b)].
    apply Forall_forall. intros t Ht i j Hi Hj.
    rewrite Hs in Hi. apply In_range in Hi.
    assert (b <= j < hi) by (apply (chain_covered _ _ _ _ Hc); exists t; auto).
    lia.
Qed.

Lemma chain_starts (lo hi : Z) (segs : list DataFrame) :
  chain lo segs hi -> StronglySorted Z.le (map start_index segs).
Proof.
  revert lo. induction segs as [|s segs IH]; intros lo H; cbn in H.
  - constructor.
  - destruct H as (a & b & Ha & Hab & Hs & Hc).
    cbn [map]. constructor; [now apply (IH b)|].
    apply Forall_map. eapply Forall_impl; [|apply (chain_ranges _ _ _ Hc)].
    cbn. intros t (a' & b' & H1 & H2 & H3 & H4).
    unfold start_index. rewrite Hs, H4, (range_cons a b), (range_cons a' b') by lia.
    cbn. lia.
Qed.

Lemma covered_snoc_l (segs : list DataFrame) (s : DataFrame) (j : Z) :
  covered segs j -> covered (segs ++ [s]) j.
Proof.
  intros (t & Ht & Hj). exists t. split; [apply in_or_app; now left|exact Hj].
Qed.

Lemma covered_snoc_r (segs : list DataFrame) (s : DataFrame) (j : Z) :
  In j (labels s) -> covered (segs ++ [s]) j.
Proof.
  intros Hj. exists s. split; [apply in_or_app; right; now left|exact Hj].
Qed.

(** ** Counting flat samples *)

Lemma count_flat_empty (x y : list Reading) (lo hi : Z) :
  hi <= lo -> count_flat x y lo hi = 0.
Proof. intros H. unfold count_flat. now rewrite range_empty. Qed.

Lemma count_flat_snoc (x y : list Reading) (lo hi : Z) :
  lo <= hi ->
  count_flat x y lo (hi + 1)
  = count_flat x y lo hi + (if is_flat (kind_at x y hi) then 1 else 0).
Proof.
  intros H. unfold count_flat.
  rewrite range_snoc, filter_app, len_app by assumption.
  cbn [filter]. now destruct (is_flat (kind_at x y hi)).
Qed.

Lemma count_flat_nonneg (x y : list Reading) (lo hi : Z) :
  0 <= count_flat x y lo hi.
Proof. apply len_nonneg. Qed.

Lemma near_flat_later (x y : list Reading) (k i i' j : Z) :
  near_flat x y k i j -> i <= i' -> near_flat x y k i' j.
Proof.
  intros (c & H1 & H2 & H3 & H4) Hle. exists c. repeat split; auto; lia.
Qed.

(** ** The invariant is kept by every iteration *)

Lemma scan_inv_initial (x y : list Reading) (k : Z) :
  1 <= k -> scan_inv x y k 0 initial.
Proof.
  intros Hk. unfold initial. split; cbn [results m flat recording].
  - lia.
  - intros _. rewrite count_flat_empty by lia. lia.
  - cbn. lia.
  - intros j Hj. right. right. right. split; [reflexivity|lia].
Qed.

Lemma gaps_old (x y : list Reading) (k i : Z) (rs rs' : list DataFrame)
  (P P' : Prop) (j : Z) :
  (covered rs j -> covered rs' j) -> (P -> P') ->
  covered rs j \/ flat_or_misaligned x y j \/ near_flat x y k i j \/ P ->
  covered rs' j \/ flat_or_misaligned x y j \/ near_flat x y k (i + 1) j \/ P'.
Proof.
  intros Hc HP [H|[H|[H|H]]]; auto.
  right. right. left. apply (near_flat_later _ _ _ i); [assumption|lia].
Qed.

Lemma scan_inv_step (x y : list Reading) (frame : DataFrame) (k i : Z)
  (st : State) :
  1 <= k -> labels frame = range 0 (len x) -> 0 <= i -> i + 1 < len x ->
  scan_inv x y k i st ->
  scan_inv x y k (i + 1) (step frame k (kind_at x y (i + 1)) (i + 1) st).
Proof.
  intros Hk Hframe Hi HiL [Hm Hflat Hchain Hgaps].
  destruct st as [rs m0 fl rec]. cbn [results m flat recording] in *.
  assert (forall j, 0 <= j <= i + 1 -> 0 <= j <= i \/ j = i + 1) as Hsplit
    by (intros; lia).
  destruct (kind_at x y (i + 1)) eqn:Hkind; cbn [step results m flat recording].
  - (* misaligned: the state is kept *)
    split; cbn [results m flat recording].
    + lia.
    + intros Hrec. destruct (Hflat Hrec) as [Hc Hlt].
      replace (i + 1 + 1) with ((i + 1) + 1) by lia.
      rewrite count_flat_snoc, Hkind by lia. cbn. lia.
    + destruct rec; [assumption|]. apply (chain_weaken _ i); [assumption|lia].
    + intros j Hj. destruct (Hsplit j Hj) as [Hold| ->].
      * refine (gaps_old x y k i _ _ _ _ j _ _ (Hgaps j Hold)); auto.
      * right. left. split; [lia|congruence].
  - (* flat *)
    destruct rec; cbn [negb].
    + destruct (Hflat eq_refl) as [Hc Hlt].
      destruct (k <=? fl + 1) eqn:Hclose.
      * (* the segment is closed *)
        split; cbn [results m flat recording].
        -- lia.
        -- discriminate.
        -- destruct (1 <? i + 1 - k - m0) eqn:Hsize.
           ++ apply (chain_snoc 0 m0 (i + 1) m0 (i + 1 - k)); try lia; auto.
              rewrite labels_slice, Hframe. apply slice_range; lia.
           ++ apply (chain_weaken _ m0); [assumption|lia].
        -- intros j Hj. destruct (Hsplit j Hj) as [Hold| ->].
           ++ destruct (Hgaps j Hold) as [H|[H|[H|[_ H]]]].
              ** left. destruct (1 <? i + 1 - k - m0); auto using covered_snoc_l.
              ** auto.
              ** right. right. left.
                 apply (near_flat_later _ _ _ i); [assumption|lia].
              ** destruct (1 <? i + 1 - k - m0) eqn:Hsize.
                 --- destruct (Z_lt_le_dec j (i + 1 - k)) as [Hin|Hout].
                     +++ left. apply covered_snoc_r.
                         rewrite labels_slice, Hframe, slice_range by lia.
                         apply In_range. lia.
                     +++ right. right. left. exists (i + 1).
                         repeat split; auto; lia.
                 --- right. right. left. exists (i + 1).
                     repeat split; auto; lia.
           ++ right. left. split; [lia|congruence].
      * (* still below the threshold *)
        split; cbn [results m flat recording].
        -- lia.
        -- intros _. replace (i + 1 + 1) with ((i + 1) + 1) by lia.
           rewrite count_flat_snoc, Hkind by lia. cbn. lia.
        -- assumption.
        -- intros j Hj. destruct (Hsplit j Hj) as [Hold| ->].
           ++ refine (gaps_old x y k i _ _ _ _ j _ _ (Hgaps j Hold)); auto.
           ++ right. left. split; [lia|congruence].
    + (* not recording: only the counter moves *)
      split; cbn [results m flat recording].
      * lia.
      * discriminate.
      * apply (chain_weaken _ i); [assumption|lia].
      * intros j Hj. destruct (Hsplit j Hj) as [Hold| ->].
        -- refine (gaps_old x y k i _ _ _ _ j _ _ (Hgaps j Hold)); auto.
        -- right. left. split; [lia|congruence].
  - (* changed *)
    destruct rec; cbn [negb].
    + split; cbn [results m flat recording].
      * lia.
      * intros Hrec. destruct (Hflat Hrec) as [Hc Hlt].
        replace (i + 1 + 1) with ((i + 1) + 1) by lia.
        rewrite count_flat_snoc, Hkind by lia. cbn. lia.
      * assumption.
      * intros j Hj. destruct (Hsplit j Hj) as [Hold| ->].
        -- refine (gaps_old x y k i _ _ _ _ j _ _ (Hgaps j Hold)); auto.
        -- right. right. right. split; [reflexivity|lia].
    + (* recording restarts at this index *)
      split; cbn [results m flat recording].
      * lia.
      * intros _. rewrite count_flat_empty by lia. lia.
      * apply (chain_weaken _ i); [assumption|lia].
      * intros j Hj. destruct (Hsplit j Hj) as [Hold| ->].
        -- refine (gaps_old x y k i _ _ _ _ j _ _ (Hgaps j Hold)); auto.
           intros [? _]; discriminate.
        -- right. right. right. split; [reflexivity|lia].
Qed.

Lemma state_at_inv (x y : list Reading) (frame : DataFrame) (k i : Z) :
  1 <= k -> labels frame = range 0 (len x) -> 0 <= i < len x ->
  scan_inv x y k i (state_at x y frame k i).
Proof.
  intros Hk Hframe [Hi HiL].
  revert HiL. pattern i. apply natlike_ind; [| |exact Hi].
  - intros _. rewrite state_at_0. now apply scan_inv_initial.
  - intros j Hj IH HjL. unfold Z.succ in *.
    rewrite state_at_succ by assumption.
    apply scan_inv_step; auto. apply IH. lia.
Qed.

(** The segments handed back once the loop is over. *)
Lemma capture_final_inv (x y : list Reading) (frame : DataFrame) (k : Z)
  (st : State) :
  labels frame = range 0 (len x) -> 2 <= len x ->
  scan_inv x y k (len x - 1) st ->
  exists segs,
    capture_final frame (Some (len x - 1)) st = Ok segs
    /\ chain 0 segs (len x)
    /\ forall j, 0 <= j < len x ->
         covered segs j \/ flat_or_misaligned x y j
         \/ near_flat x y k (len x - 1) j \/ len x <= j + 2.
Proof.
  intros Hframe HL [Hm Hflat Hchain Hgaps].
  destruct st as [rs m0 fl rec]. cbn [results m flat recording] in *.
  unfold capture_final. cbn [results m flat recording].
  destruct rec.
  - destruct (1 <? len x - 1 - m0) eqn:Hspan.
    + eexists. split; [reflexivity|]. split.
      * apply (chain_snoc 0 m0 (len x) m0 (len x)); try lia; auto.
        rewrite labels_slice, Hframe. apply slice_range_tail; lia.
      * intros j Hj. destruct (Hgaps j) as [H|[H|[H|[_ H]]]]; auto; [lia| |].
        -- left. now apply covered_snoc_l.
        -- left. apply covered_snoc_r.
           rewrite labels_slice, Hframe, slice_range_tail by lia.
           apply In_range. lia.
    + eexists. split; [reflexivity|]. split.
      * apply (chain_weaken _ m0); [assumption|lia].
      * intros j Hj. destruct (Hgaps j) as [H|[H|[H|[_ H]]]]; auto; [lia|].
        right. right. right. lia.
  - eexists. split; [reflexivity|]. split.
    + apply (chain_weaken _ (len x - 1)); [assumption|lia].
    + intros j Hj. destruct (Hgaps j) as [H|[H|[H|[H _]]]]; auto; [lia|].
      discriminate.
Qed.

(** ** What [find_breaks] returns, by shape of the input *)

Lemma find_breaks_empty_x (y : list Reading) (k : Z) :
  find_breaks [] y k = Raise UnboundLocalError.
Proof.
  unfold find_breaks. destruct (build_xy_frame_empty_x y) as (frame & ->).
  reflexivity.
Qed.

Lemma find_breaks_short (x y : list Reading) (k : Z) :
  length x = length y -> len x < 2 ->
  find_breaks x y k = Raise UnboundLocalError.
Proof.
  intros Hlen Hshort.
  destruct x as [|r [|r0 x]]; [apply find_breaks_empty_x| |].
  - destruct y as [|r' [|r0' y]]; try discriminate. reflexivity.
  - unfold len in Hshort. cbn [length] in Hshort. lia.
Qed.

Lemma find_breaks_mismatch (x y : list Reading) (k : Z) :
  length x <> length y -> x <> [] ->
  find_breaks x y k = Raise ValueError.
Proof.
  intros Hne Hx. unfold find_breaks.
  now rewrite build_xy_frame_mismatch.
Qed.

Lemma find_breaks_Ok_inv (x y : list Reading) (k : Z) (segs : list DataFrame) :
  find_breaks x y k = Ok segs -> length x = length y /\ 2 <= len x.
Proof.
  intros H.
  destruct (Nat.eq_dec (length x) (length y)) as [Heq|Hne].
  - split; [assumption|].
    destruct (Z_lt_le_dec (len x) 2) as [Hshort|]; [|assumption].
    rewrite find_breaks_short in H by assumption. discriminate.
  - destruct x as [|r x].
    + rewrite find_breaks_empty_x in H. discriminate.
    + rewrite find_breaks_mismatch in H by (auto; discriminate). discriminate.
Qed.

Lemma capture_final_bound (frame : DataFrame) (n : Z) (st : State) :
  exists segs, capture_final frame (Some n) st = Ok segs.
Proof.
  unfold capture_final.
  destruct (recording st); [destruct (1 <? n - m st)|]; eexists; reflexivity.
Qed.

Lemma find_breaks_returns (x y : list Reading) (k : Z) :
  length x = length y -> 2 <= len x ->
  exists segs, find_breaks x y k = Ok segs.
Proof.
  intros Hlen H2.
  destruct (find_breaks_unfold x y k Hlen H2) as (frame & _ & _ & ->).
  apply capture_final_bound.
Qed.

Lemma find_breaks_segments (x y : list Reading) (k : Z) :
  length x = length y -> 2 <= len x -> 1 <= k ->
  exists segs,
    find_breaks x y k = Ok segs
    /\ chain 0 segs (len x)
    /\ forall j, 0 <= j < len x ->
         covered segs j \/ flat_or_misaligned x y j
         \/ near_flat x y k (len x - 1) j \/ len x <= j + 2.
Proof.
  intros Hlen H2 Hk.
  destruct (find_breaks_unfold x y k Hlen H2) as (frame & _ & Hl & ->).
  apply capture_final_inv; try assumption.
  apply state_at_inv; auto. lia.
Qed.


(** With small readings the differences the loop body takes are the ones
    numpy computes on int64 columns. *)
Lemma int64_abs_diff_small (a b : Z) :
  - 2 ^ 62 <= a < 2 ^ 62 -> - 2 ^ 62 <= b < 2 ^ 62 ->
  int64_abs_diff a b = Z.abs (a - b).
Proof.
  intros Ha Hb. unfold int64_abs_diff, wrap64.
  rewrite (Z.mod_small (a - b + 2 ^ 63)) by lia.
  replace (a - b + 2 ^ 63 - 2 ^ 63) with (a - b) by lia.
  rewrite Z.mod_small by lia. lia.
Qed.

Lemma small_readings_at (data : list Reading) (i : Z) :
  small_readings data = true -> 0 <= i < len data ->
  - 2 ^ 62 <= euvalue (reading_at data i) < 2 ^ 62.
Proof.
  intros Hsmall Hi. unfold small_readings in Hsmall.
  rewrite forallb_forall in Hsmall.
  assert (In (reading_at data i) data) as Hin
    by (apply nth_In; unfold len in Hi; lia).
  specialize (Hsmall _ Hin). apply andb_true_iff in Hsmall. lia.
Qed.

Lemma small_readings_exact (data : list Reading) (n : Z) :
  small_readings data = true -> 1 <= n < len data ->
  Z.abs (euvalue (reading_at data (n - 1)) - euvalue (reading_at data n))
  = int64_abs_diff (euvalue (reading_at data (n - 1)))
                   (euvalue (reading_at data n)).
Proof.
  intros Hsmall Hn. symmetry.
  apply int64_abs_diff_small; apply small_readings_at; auto; lia.
Qed.


(** ** Runs of flat samples *)

Lemma kind_flat_iff (x y : list Reading) (i : Z) :
  kind_at x y i = Flat <-> aligned x y i = true /\ unchanged x y i = true.
Proof.
  unfold kind_at. destruct (aligned x y i), (unchanged x y i);
    split; try discriminate; auto; intros []; discriminate.
Qed.

Lemma kind_changed_iff (x y : list Reading) (i : Z) :
  kind_at x y i = Changed <-> aligned x y i = true /\ unchanged x y i = false.
Proof.
  unfold kind_at. destruct (aligned x y i), (unchanged x y i);
    split; try discriminate; auto; intros []; discriminate.
Qed.

(** From a recording state, [j] flat samples in a row leave the scan
    recording exactly when the counter stays below the threshold. *)
Lemma flat_run_state (x y : list Reading) (frame : DataFrame) (k a j : Z) :
  0 <= a -> 0 <= j ->
  recording (state_at x y frame k a) = true ->
  flat (state_at x y frame k a) < k ->
  (forall i, a < i <= a + j -> kind_at x y i = Flat) ->
  (recording (state_at x y frame k (a + j)) = true
   <-> flat (state_at x y frame k a) + j < k)
  /\ (recording (state_at x y frame k (a + j)) = true ->
      flat (state_at x y frame k (a + j)) = flat (state_at x y frame k a) + j).
Proof.
  intros Ha Hj Hrec Hlt. pattern j. apply natlike_ind; [| |exact Hj].
  - intros _. rewrite Z.add_0_r. split; [split; [lia|auto]|lia].
  - clear j Hj. intros j Hj IH Hflat. unfold Z.succ in *.
    destruct IH as [IH1 IH2]; [intros i Hi; apply Hflat; lia|].
    replace (a + (j + 1)) with ((a + j) + 1) by lia.
    rewrite state_at_succ by lia.
    rewrite (Hflat (a + j + 1)) by lia.
    destruct (state_at x y frame k (a + j)) as [rs m0 fl rec].
    cbn [results m flat recording step] in *.
    destruct rec; cbn [negb].
    + specialize (IH2 eq_refl). destruct IH1 as [IH1 _]. specialize (IH1 eq_refl).
      destruct (k <=? fl + 1) eqn:E; cbn [recording flat].
      * split; [split; [discriminate|lia]|discriminate].
      * split; [split; [lia|auto]|lia].
    + split; [split; [discriminate|]|discriminate].
      intros H. apply IH1. lia.
Qed.

(** On a wholly flat input the scan stops recording at index [max_flats]
    and has stored nothing. *)
Lemma all_flat_state (x y : list Reading) (frame : DataFrame) (k i : Z) :
  1 <= k -> 0 <= i ->
  (forall j, 1 <= j <= i -> kind_at x y j = Flat) ->
  results (state_at x y frame k i) = []
  /\ m (state_at x y frame k i) = 0
  /\ flat (state_at x y frame k i) = i
  /\ recording (state_at x y frame k i) = (i <? k).
Proof.
  intros Hk Hi. pattern i. apply natlike_ind; [| |exact Hi].
  - intros _. rewrite state_at_0. cbn.
    destruct (0 <? k) eqn:E; [auto|lia].
  - clear i Hi. intros i Hi IH Hflat. unfold Z.succ in *.
    destruct IH as (Hr & Hm & Hf & Hrec); [intros j Hj; apply Hflat; lia|].
    rewrite state_at_succ, (Hflat (i + 1)) by lia.
    destruct (state_at x y frame k i) as [rs m0 fl rec].
    cbn [results m flat recording step] in *. subst.
    destruct (i <? k) eqn:E; cbn [negb].
    + destruct (k <=? i + 1) eqn:E'; cbn [results m flat recording].
      * destruct (1 <? i + 1 - k - 0) eqn:E''; [lia|].
        destruct (i + 1 <? k) eqn:E3; [lia|auto].
      * destruct (i + 1 <? k) eqn:E3; [auto|lia].
    + cbn [results m flat recording].
      destruct (i + 1 <? k) eqn:E3; [lia|auto].
Qed.

(** On a wholly changing input the state never moves. *)
Lemma all_changed_state (x y : list Reading) (frame : DataFrame) (k i : Z) :
  0 <= i ->
  (forall j, 1 <= j <= i -> kind_at x y j = Changed) ->
  state_at x y frame k i = initial.
Proof.
  intros Hi. pattern i. apply natlike_ind; [| |exact Hi].
  - intros _. apply state_at_0.
  - clear i Hi. intros i Hi IH Hch. unfold Z.succ in *.
    rewrite state_at_succ, (Hch (i + 1)), IH by (try lia; intros; apply Hch; lia).
    reflexivity.
Qed.

Lemma slice_whole {A : Type} (a : list A) : slice a 0 None = a.
Proof.
  unfold slice, clamp. cbn [Z.ltb]. pose proof (len_nonneg a).
  rewrite Z.min_l by lia. rewrite Z.sub_0_r. cbn [Z.to_nat skipn].
  unfold len. rewrite Nat2Z.id. apply firstn_all.
Qed.

(** A wholly changing input of at least three samples comes back as one
    segment holding every row. *)
Lemma varying_input_one_segment (x y : list Reading) (k : Z) :
  length x = length y -> 3 <= len x ->
  fully_aligned x y = true -> all_changed x y = true ->
  exists seg, find_breaks x y k = Ok [seg]
              /\ build_xy_frame x y = Ok seg
              /\ labels seg = range 0 (len x).
Proof.
  intros Hlen H3 Hal Hch.
  destruct (find_breaks_unfold x y k Hlen) as (frame & Hb & Hl & ->); [lia|].
  exists frame. split; [|auto].
  rewrite all_changed_state; [|lia|].
  - unfold capture_final, initial. cbn [recording m results].
    destruct (1 <? len x - 1 - 0) eqn:E; [|lia].
    now rewrite slice_whole.
  - intros j Hj. apply kind_changed_iff. split.
    + apply (proj1 (forallb_range _ _ _) Hal). lia.
    + apply negb_true_iff.
      apply (proj1 (forallb_range (fun i => negb (unchanged x y i)) _ _) Hch). lia.
Qed.

(** * The stated properties *)

(** ** C1: wholly flat input *)

(** C1, as worded, does not hold: three identical samples scanned with the
    default threshold of 5 never reach five flat samples, so the scan ends
    still recording and hands the whole input back as one segment. *)
Lemma flat_input_counterexample : ~ flat_input_yields_nothing.
Proof.
  intros H.
  assert (1 <= 5) as Hk by lia.
  specialize (H (table [5; 5; 5]) (table [1; 1; 1]) 5
                eq_refl eq_refl eq_refl Hk).
  vm_compute in H. discriminate.
Qed.

(** C1, amended: for equal-length, fully aligned series in which every
    consecutive pair of samples is unchanged, and which hold at least
    [max_flats + 1] samples (so that [max_flats] flat samples are met),
    [find_breaks] returns the empty list, for every [max_flats >= 1]. *)
Theorem flat_input_reaching_max_flats (x y : list Reading) (k : Z) :
  length x = length y ->
  fully_aligned x y = true ->
  all_unchanged x y = true ->
  1 <= k -> k + 1 <= len x ->
  find_breaks x y k = Ok [].
Proof.
  intros Hlen Hal Hun Hk HL.
  destruct (find_breaks_unfold x y k Hlen) as (frame & _ & _ & ->); [lia|].
  destruct (all_flat_state x y frame k (len x - 1))
    as (Hr & Hm & Hf & Hrec); [lia|lia| |].
  - intros j Hj. apply kind_flat_iff. split.
    + apply (proj1 (forallb_range _ _ _) Hal). lia.
    + apply (proj1 (forallb_range _ _ _) Hun). lia.
  - unfold capture_final. rewrite Hrec, Hr.
    destruct (len x - 1 <? k) eqn:E; [lia|reflexivity].
Qed.

Lemma flat_input_reaching_max_flats_witness :
  find_breaks (table [5; 5; 5; 5; 5]) (table [1; 1; 1; 1; 1]) 2 = Ok [].
Proof.
  apply (flat_input_reaching_max_flats
           (table [5; 5; 5; 5; 5]) (table [1; 1; 1; 1; 1]) 2);
    try reflexivity; vm_compute; discriminate.
Defined.

(** ** C2: the flat-run threshold *)

(** C2, as worded, does not hold: in [stepped] with [max_flats = 3] the
    repeat at index 2 has already been counted when the run of exactly two
    flat samples at indices 5 and 6 arrives, and that run closes the
    segment. *)
Lemma flat_run_boundary_counterexample : ~ flat_run_boundary.
Proof.
  intros [H _].
  assert (recording (mkState [slice (frame_of stepped stepped) 0 (Some 3)]
                             0 3 false) = true) as Habs;
    [|discriminate Habs].
  apply (H stepped stepped (frame_of stepped stepped) 3 4
           (mkState [] 0 1 true)); try reflexivity; try lia.
  - intros i Hi. assert (i = 5 \/ i = 6) as [-> | ->] by lia; reflexivity.
Qed.

(** C2, amended: the flat counter is not reset while a segment is being
    recorded; it holds the number of flat samples met since the segment
    started.  From a recording state, [j] flat samples in a row leave the
    scan recording exactly when that count plus [j] stays below
    [max_flats].  So a run of [max_flats] flat samples always closes the
    active segment, and a run of [max_flats - 1] keeps it open when no flat
    sample came earlier in the same segment. *)
Theorem flat_run_closes_on_count (x y : list Reading) (frame : DataFrame)
  (k a j : Z) (st : State) :
  length x = length y ->
  build_xy_frame x y = Ok frame ->
  1 <= k -> 0 <= a -> 0 <= j -> a + j < len x ->
  scan_upto x y frame k a = Ok st ->
  recording st = true ->
  (forall i, a < i <= a + j -> kind_at x y i = Flat) ->
  flat st = count_flat x y (m st + 1) (a + 1)
  /\ exists st',
       scan_upto x y frame k (a + j) = Ok st'
       /\ (recording st' = true <-> flat st + j < k)
       /\ (j = k -> recording st' = false)
       /\ (j = k - 1 -> flat st = 0 -> recording st' = true).
Proof.
  intros Hlen Hb Hk Ha Hj HL Hst Hrec Hflat.
  destruct (build_xy_frame_ok x y Hlen) as (frame' & Hb' & Hl).
  rewrite Hb in Hb'. injection Hb' as <-.
  rewrite scan_upto_state_at in Hst by (auto; lia). injection Hst as <-.
  destruct (state_at_inv x y frame k a Hk Hl) as [_ Hinv _ _]; [lia|].
  destruct (Hinv Hrec) as [Hcount Hlt].
  destruct (flat_run_state x y frame k a j Ha Hj Hrec Hlt Hflat) as [Hiff _].
  split; [exact Hcount|].
  exists (state_at x y frame k (a + j)).
  split; [apply scan_upto_state_at; auto|].
  split; [exact Hiff|].
  pose proof (count_flat_nonneg x y (m (state_at x y frame k a) + 1) (a + 1)).
  split.
  - intros ->.
    destruct (recording (state_at x y frame k (a + k))); [|reflexivity].
    destruct Hiff as [Hiff _]. specialize (Hiff eq_refl). lia.
  - intros -> H0. apply Hiff. lia.
Qed.

Lemma flat_run_closes_on_count_witness :
  flat (mkState [] 0 1 true)
  = count_flat stepped stepped (m (mkState [] 0 1 true) + 1) (4 + 1)
  /\ exists st',
       scan_upto stepped stepped (frame_of stepped stepped) 3 (4 + 2) = Ok st'
       /\ (recording st' = true <-> flat (mkState [] 0 1 true) + 2 < 3)
       /\ (2 = 3 -> recording st' = false)
       /\ (2 = 3 - 1 -> flat (mkState [] 0 1 true) = 0 -> recording st' = true).
Proof.
  apply (flat_run_closes_on_count stepped stepped (frame_of stepped stepped)
           3 4 2 (mkState [] 0 1 true)); try reflexivity; try lia.
  - intros i Hi. assert (i = 5 \/ i = 6) as [-> | ->] by lia; reflexivity.
Defined.

(** ** C3: the series still being recorded when the input ends *)

(** C3 is not met by the code.  In [0; 0; 0; 1; 2] with [max_flats = 2]
    the scan ends recording a series that starts at index 3: two samples,
    indices 3 and 4.  The final test compares [n - m] with 1, where [n] is
    the last index and not the length, so the two samples are dropped.  The
    test inside the loop compares the length of the slice with 1 and does
    store a series of two samples, as [0; 1; 2; 2; 2] shows. *)
Theorem trailing_pair_is_dropped :
  scan_upto (table [0; 0; 0; 1; 2]) (table [0; 0; 0; 1; 2])
    (frame_of (table [0; 0; 0; 1; 2]) (table [0; 0; 0; 1; 2])) 2 4
  = Ok (mkState [] 3 0 true)
  /\ find_breaks (table [0; 0; 0; 1; 2]) (table [0; 0; 0; 1; 2]) 2 = Ok []
  /\ index_ranges
       (find_breaks (table [0; 1; 2; 2; 2]) (table [0; 1; 2; 2; 2]) 2)
     = Ok [[0; 1]].
Proof. repeat split; reflexivity. Qed.

(** ** C4: wholly changing input *)

(** C4 is not met by the code at length 2: two aligned samples that differ
    give no segment at all, whatever [max_flats] is, because the final test
    [n - m > 1] sees [1 - 0]. *)
Theorem two_changing_samples_yield_nothing :
  fully_aligned (table [0; 1]) (table [0; 1]) = true
  /\ all_changed (table [0; 1]) (table [0; 1]) = true
  /\ forall k, find_breaks (table [0; 1]) (table [0; 1]) k = Ok [].
Proof.
  split; [reflexivity|]. split; [reflexivity|]. intros k. reflexivity.
Qed.

(** ** C5: a non-positive threshold *)

(** C5, as worded, does not hold: [max_flats] is never checked, and with
    [max_flats = 0] the call returns a segment. *)
Lemma nonpositive_max_flats_counterexample : ~ nonpositive_max_flats_refused.
Proof.
  intros H.
  assert (0 < 1) as Hk by lia.
  specialize (H (table [0; 1; 2; 3; 3]) (table [0; 1; 2; 3; 3]) 0 Hk).
  vm_compute in H. discriminate.
Qed.

(** C5, amended: [find_breaks] does not validate [max_flats]; called with
    a non-positive [max_flats] on equal-length series of at least two
    samples it raises nothing, runs the scan and returns a list of
    segments. *)
Theorem nonpositive_max_flats_accepted (x y : list Reading) (k : Z) :
  length x = length y -> 2 <= len x -> k < 1 ->
  exists segs, find_breaks x y k = Ok segs.
Proof. intros Hlen H2 _. now apply find_breaks_returns. Qed.

Lemma nonpositive_max_flats_accepted_witness :
  exists segs,
    find_breaks (table [0; 1; 2; 3; 3]) (table [0; 1; 2; 3; 3]) 0 = Ok segs.
Proof.
  apply (nonpositive_max_flats_accepted
           (table [0; 1; 2; 3; 3]) (table [0; 1; 2; 3; 3]) 0);
    [reflexivity | vm_compute; discriminate | lia].
Defined.

(** ** C6: fewer than two samples *)

(** C6: on equal-length series of fewer than two samples the loop body never
    runs, the final test reads the unbound loop variable [n], and
    [find_breaks] raises [UnboundLocalError] (a [NameError]) instead of
    returning an empty list. *)
Theorem short_input_raises_name_error (x y : list Reading) (k : Z) :
  length x = length y -> len x < 2 ->
  find_breaks x y k = Raise UnboundLocalError
  /\ is_NameError UnboundLocalError = true.
Proof.
  intros Hlen Hshort. split; [now apply find_breaks_short|reflexivity].
Qed.

Lemma short_input_raises_name_error_witness :
  find_breaks (table [7]) (table [3]) 5 = Raise UnboundLocalError
  /\ is_NameError UnboundLocalError = true.
Proof.
  apply (short_input_raises_name_error (table [7]) (table [3]) 5);
    reflexivity.
Defined.

(** ** C7: series of unequal length *)

(** C7, as worded, does not hold: an empty [x_data] paired with a
    non-empty [y_data] is not refused when the table is built (the empty
    frame takes its index from the [y] column); the call then fails on the
    unbound loop variable, not with a [ValueError]. *)
Lemma unequal_lengths_counterexample : ~ unequal_lengths_refused.
Proof.
  intros H.
  assert (length (@nil Reading) <> length (table [1])) as Hne
    by (cbn; discriminate).
  specialize (H [] (table [1]) 5 Hne).
  vm_compute in H. discriminate.
Qed.

(** C7, amended: for series of unequal length [find_breaks] raises before
    any segment is produced: [ValueError], from the assignment of the [y]
    column, whenever [x_data] is not empty, and [UnboundLocalError] when
    [x_data] is empty. *)
Theorem unequal_lengths_raise (x y : list Reading) (k : Z) :
  length x <> length y ->
  (x <> [] -> find_breaks x y k = Raise ValueError)
  /\ (x = [] -> find_breaks x y k = Raise UnboundLocalError).
Proof.
  intros Hne. split.
  - intros Hx. now apply find_breaks_mismatch.
  - intros ->. apply find_breaks_empty_x.
Qed.

Lemma unequal_lengths_raise_witness :
  (table [1; 2; 3] <> [] ->
   find_breaks (table [1; 2; 3]) (table [1; 2]) 5 = Raise ValueError)
  /\ (table [1; 2; 3] = [] ->
      find_breaks (table [1; 2; 3]) (table [1; 2]) 5 = Raise UnboundLocalError).
Proof.
  apply (unequal_lengths_raise (table [1; 2; 3]) (table [1; 2]) 5).
  cbn. discriminate.
Defined.

(** ** C8: what the segments cover *)


(** The last sample is left out by design when recording restarts on it:
    in [0; 0; 0; 1] with [max_flats = 2] nothing is returned, and index 3 is
    aligned, changed, and has no flat sample after it. *)
Lemma last_sample_left_out :
  find_breaks (table [0; 0; 0; 1]) (table [0; 0; 0; 1]) 2 = Ok []
  /\ kind_at (table [0; 0; 0; 1]) (table [0; 0; 0; 1]) 3 = Changed
  /\ ~ near_flat (table [0; 0; 0; 1]) (table [0; 0; 0; 1]) 2 3 3.
Proof.
  split; [reflexivity|]. split; [reflexivity|].
  intros (c & H1 & _ & H3 & _). lia.
Qed.



(** ** C9: a sample whose keys disagree *)

(** C9: when the MJD values read at index [n] differ, the loop body
    returns the state it was given: [results], [m], [flat] and [recording]
    are all kept, so nothing is stored at that index. *)
Theorem misaligned_sample_keeps_state
  (x_vals x_dates y_vals y_dates : list Z) (xy_frame : DataFrame)
  (max_flats n xd yd : Z) (st : State) :
  getitem x_dates n = Ok xd ->
  getitem y_dates n = Ok yd ->
  xd <> yd ->
  body x_vals x_dates y_vals y_dates xy_frame max_flats n st = Ok st.
Proof.
  intros Hx Hy Hne. unfold body. rewrite Hx, Hy. cbn [bind].
  destruct (xd =? yd) eqn:E; [lia|reflexivity].
Qed.

Lemma misaligned_sample_keeps_state_witness :
  body [4; 4; 9] [0; 1; 2] [6; 6; 6] [0; 5; 2] [] 5 1 (mkState [] 0 2 true)
  = Ok (mkState [] 0 2 true).
Proof.
  apply (misaligned_sample_keeps_state
           [4; 4; 9] [0; 1; 2] [6; 6; 6] [0; 5; 2] [] 5 1 1 5
           (mkState [] 0 2 true));
    [reflexivity | reflexivity | discriminate].
Defined.

(** ** C10: order and disjointness of the segments *)

(** C10: for every input and [max_flats >= 1], the segments that
    [find_breaks] returns are index ranges [a, b) of the input; every index
    of a segment is below every index of any segment that follows it in the
    output, so no two segments overlap; and the start indices are in
    non-decreasing order.  The function does return on every pair of
    equal-length series of at least two samples. *)
Theorem segments_disjoint_and_ordered (x y : list Reading) (k : Z) :
  1 <= k ->
  (forall segs,
     find_breaks x y k = Ok segs ->
     Forall (fun s => exists a b, 0 <= a /\ a < b /\ b <= len x
                                  /\ labels s = range a b) segs
     /\ ForallOrdPairs before segs
     /\ StronglySorted Z.le (map start_index segs))
  /\ (length x = length y -> 2 <= len x ->
      exists segs, find_breaks x y k = Ok segs).
Proof.
  intros Hk. split; [|apply find_breaks_returns].
  intros segs Hfb.
  destruct (find_breaks_Ok_inv x y k segs Hfb) as [Hlen H2].
  destruct (find_breaks_segments x y k Hlen H2 Hk) as (segs' & Hfb' & Hch & _).
  rewrite Hfb in Hfb'. injection Hfb' as <-.
  split; [|split].
  - now apply chain_ranges.
  - now apply (chain_before 0 (len x)).
  - now apply (chain_starts 0 (len x)).
Qed.

Lemma segments_disjoint_and_ordered_witness :
  (forall segs,
     find_breaks stepped stepped 3 = Ok segs ->
     Forall (fun s => exists a b, 0 <= a /\ a < b /\ b <= len stepped
                                  /\ labels s = range a b) segs
     /\ ForallOrdPairs before segs
     /\ StronglySorted Z.le (map start_index segs))
  /\ (length stepped = length stepped -> 2 <= len stepped ->
      exists segs, find_breaks stepped stepped 3 = Ok segs).
Proof.
  apply (segments_disjoint_and_ordered stepped stepped 3). lia.
Defined.

(** * Further properties of [find_breaks] *)

(** ** Slices of the table *)

Lemma slice_stop_beyond {A : Type} (a : list A) (start stop : Z) :
  len a <= stop -> slice a start (Some stop) = slice a start None.
Proof.
  intros H. pose proof (len_nonneg a).
  assert (clamp (len a) stop = len a) as Hc.
  { unfold clamp. destruct (stop <? 0) eqn:E; lia. }
  unfold slice. now rewrite Hc.
Qed.

Lemma slice_range_clamped (L a b : Z) :
  0 <= a -> a <= b -> a <= L ->
  slice (range 0 L) a (Some b) = range a (Z.min b L).
Proof.
  intros Ha Hab HaL. destruct (Z_le_gt_dec b L) as [HbL|HbL].
  - rewrite Z.min_l by lia. now apply slice_range.
  - rewrite Z.min_r by lia. rewrite slice_stop_beyond.
    + now apply slice_range_tail.
    + rewrite len_range. lia.
Qed.

Lemma incl_slice {A : Type} (a : list A) (start : Z) (stop : option Z) :
  incl (slice a start stop) a.
Proof.
  unfold slice. intros r Hr.
  set (lo := Z.to_nat (clamp (len a) start)) in *.
  rewrite <- (firstn_skipn lo a). apply in_or_app. right.
  match type of Hr with In _ (firstn ?n ?l) =>
    rewrite <- (firstn_skipn n l) end.
  apply in_or_app. now left.
Qed.

Lemma len_labels_range (s : DataFrame) (a b : Z) :
  labels s = range a b -> a <= b -> len s = b - a.
Proof.
  intros H Hab. rewrite <- len_labels, H, len_range. lia.
Qed.

Lemma start_index_range (s : DataFrame) (a b : Z) :
  labels s = range a b -> a < b -> start_index s = a.
Proof.
  intros H Hab. unfold start_index. rewrite H, range_cons by assumption.
  reflexivity.
Qed.

Lemma ForallOrdPairs_snoc {A : Type} (R : A -> A -> Prop) (l : list A) (t : A) :
  ForallOrdPairs R l -> (forall s, In s l -> R s t) ->
  ForallOrdPairs R (l ++ [t]).
Proof.
  intros H Ht. induction H as [|a l Ha Hl IH]; cbn.
  - constructor; constructor.
  - constructor.
    + apply Forall_app. split.
      * exact Ha.
      * constructor; [apply Ht; now left|constructor].
    + apply IH. intros s Hs. apply Ht. now right.
Qed.

(** ** The rows of the combined table *)

Lemma setitem_eq {V : Type} (frame : DataFrame) (put : Row -> V -> Row)
  (value : list V) :
  len value = len frame ->
  setitem frame put value
  = Ok (map (fun p => put (fst p) (snd p)) (combine frame value)).
Proof.
  intros Hlen. unfold setitem.
  assert ((len frame =? 0) && (0 <? len value) = false) as ->.
  { destruct (len frame =? 0) eqn:E; [|reflexivity].
    destruct (0 <? len value) eqn:E'; [lia|reflexivity]. }
  now rewrite (proj2 (Z.eqb_eq _ _) Hlen).
Qed.

Lemma combine_map_same {A B C : Type} (f : A -> B) (g : A -> C) (l : list A) :
  combine (map f l) (map g l) = map (fun e => (f e, g e)) l.
Proof. induction l as [|a l IH]; cbn; [reflexivity|now rewrite IH]. Qed.

Lemma map_snd_combine_same {A B : Type} (a : list A) (b : list B) :
  length a = length b -> map snd (combine a b) = b.
Proof.
  revert b. induction a as [|u a IH]; intros [|v b] H;
    try reflexivity; try discriminate.
  cbn. f_equal. apply IH. now injection H.
Qed.

Lemma in_combine_range {A : Type} (l : list A) (d : A) (s i : Z) (v : A) :
  In (i, v) (combine (range s (s + len l)) l) ->
  s <= i < s + len l /\ v = nth (Z.to_nat (i - s)) l d.
Proof.
  revert s. induction l as [|a l IH]; intros s H.
  - rewrite range_empty in H by (unfold len; cbn; lia). destruct H.
  - assert (len (a :: l) = 1 + len l) as Hl by (unfold len; cbn [length]; lia).
    pose proof (len_nonneg l).
    rewrite range_cons in H by lia. cbn [combine] in H.
    destruct H as [H|H].
    + injection H as <- <-. split; [lia|].
      replace (Z.to_nat (s - s)) with 0%nat by lia. reflexivity.
    + replace (s + len (a :: l)) with ((s + 1) + len l) in H by lia.
      apply IH in H. destruct H as [Hi ->]. split; [lia|].
      replace (Z.to_nat (i - s)) with (S (Z.to_nat (i - (s + 1)))) by lia.
      reflexivity.
Qed.

Lemma build_xy_frame_zipped (src : list (Z * (Reading * Reading))) :
  map fst src = range 0 (len src) ->
  build_xy_frame (map (fun e => fst (snd e)) src)
                 (map (fun e => snd (snd e)) src)
  = Ok (map (fun e => mkRow (fst e)
                        (Some (MJD (fst (snd e))))
                        (Some (theTime (fst (snd e))))
                        (Some (euvalue (fst (snd e))))
                        (Some (euvalue (snd (snd e))))) src).
Proof.
  intros Hidx. unfold build_xy_frame, new_frame.
  rewrite !len_map, <- Hidx, !map_map.
  rewrite combine_map_same, map_map. cbn [fst snd].
  rewrite setitem_eq by (now rewrite !len_map).
  cbn [bind]. rewrite combine_map_same, map_map.
  rewrite setitem_eq by (now rewrite !len_map).
  cbn [bind]. rewrite combine_map_same, map_map.
  rewrite setitem_eq by (now rewrite !len_map).
  rewrite combine_map_same, map_map. reflexivity.
Qed.

Lemma build_xy_frame_rows (x y : list Reading) (frame : DataFrame) :
  length x = length y -> build_xy_frame x y = Ok frame ->
  Forall (row_of x y) frame.
Proof.
  intros Hlen Hb.
  assert (length (combine x y) = length x) as Hc
    by (rewrite length_combine; lia).
  assert (length (range 0 (len x)) = length (combine x y)) as Hr.
  { unfold range, len. rewrite length_map, length_seq. lia. }
  assert (len (combine (range 0 (len x)) (combine x y)) = len x) as Hs.
  { unfold len in *. rewrite length_combine. lia. }
  pose proof (build_xy_frame_zipped
                (combine (range 0 (len x)) (combine x y))) as Hz.
  rewrite Hs, map_fst_combine_same in Hz by assumption.
  specialize (Hz eq_refl).
  rewrite <- (map_map snd fst), <- (map_map snd snd) in Hz.
  rewrite map_snd_combine_same, map_fst_combine_same in Hz by assumption.
  rewrite (map_snd_combine_same x y) in Hz by assumption.
  rewrite Hz in Hb. injection Hb as <-.
  apply Forall_forall. intros r Hr'. apply in_map_iff in Hr'.
  destruct Hr' as ([i [rx ry]] & <- & Hin). cbn [fst snd].
  replace (len x) with (0 + len (combine x y)) in Hin
    by (unfold len; lia).
  apply (in_combine_range _ (no_reading, no_reading)) in Hin.
  destruct Hin as [Hi Hv].
  rewrite Z.sub_0_r, combine_nth in Hv by assumption.
  injection Hv as -> ->.
  unfold row_of, reading_at. cbn [label row_MJD timestamp x_value y_value].
  repeat split; try reflexivity; unfold len in *; lia.
Qed.

(** ** What every iteration keeps, whatever [max_flats] is *)

Lemma scan_inv_any_initial (x y : list Reading) (frame : DataFrame) (k : Z) :
  scan_inv_any x y frame k 0 initial.
Proof.
  unfold initial. split; cbn [results m flat recording].
  - lia.
  - now left.
  - constructor.
  - constructor.
  - intros s j [].
Qed.

Lemma scan_inv_any_step (x y : list Reading) (frame : DataFrame) (k i : Z)
  (st : State) :
  labels frame = range 0 (len x) -> 0 <= i -> i + 1 < len x ->
  scan_inv_any x y frame k i st ->
  scan_inv_any x y frame k (i + 1)
    (step frame k (kind_at x y (i + 1)) (i + 1) st).
Proof.
  intros Hframe Hi HiL [Hm Hstart Hsegs Hpairs Hbound].
  destruct st as [rs m0 fl rec]. cbn [results m flat recording] in *.
  assert (forall bound : Z,
            (if rec then m0 else i + 1) <= bound ->
            forall s j, In s rs -> In j (labels s) -> j + (k + 1) < bound)
    as Hold.
  { intros bound Hle s j Hs Hj. specialize (Hbound s j Hs Hj). lia. }
  destruct (kind_at x y (i + 1)) eqn:Hkind; cbn [step results m flat recording].
  - (* misaligned *)
    split; cbn [results m flat recording];
      [lia | assumption | assumption | assumption |].
    apply Hold. destruct rec; lia.
  - (* flat *)
    destruct rec; cbn [negb].
    + destruct (k <=? fl + 1) eqn:Hclose.
      * destruct (1 <? i + 1 - k - m0) eqn:Hsize.
        -- (* a series is stored *)
           assert (labels (slice frame m0 (Some (i + 1 - k)))
                   = range m0 (Z.min (i + 1 - k) (len x))) as Hl.
           { rewrite labels_slice, Hframe. apply slice_range_clamped; lia. }
           split; cbn [results m flat recording]; [lia | assumption | | |].
           ++ apply Forall_app. split; [assumption|].
              constructor; [|constructor].
              exists m0, (Z.min (i + 1 - k) (len x)).
              repeat split; auto using incl_slice; lia.
           ++ apply ForallOrdPairs_snoc; [assumption|].
              intros s Hs a b Ha Hb. rewrite Hl in Hb.
              apply In_range in Hb. specialize (Hbound s a Hs Ha). lia.
           ++ intros s j Hs Hj. apply in_app_or in Hs.
              destruct Hs as [Hs|[<-|[]]].
              ** specialize (Hbound s j Hs Hj). lia.
              ** rewrite Hl in Hj. apply In_range in Hj. lia.
        -- split; cbn [results m flat recording];
             [lia | assumption | assumption | assumption |].
           apply Hold. lia.
      * split; cbn [results m flat recording];
          [lia | assumption | assumption | assumption |].
        apply Hold. lia.
    + split; cbn [results m flat recording];
        [lia | assumption | assumption | assumption |].
      apply Hold. lia.
  - (* changed *)
    destruct rec; cbn [negb].
    + split; cbn [results m flat recording];
        [lia | assumption | assumption | assumption |].
      apply Hold. lia.
    + split; cbn [results m flat recording];
        [lia | now right | assumption | assumption |].
      apply Hold. lia.
Qed.

Lemma state_at_inv_any (x y : list Reading) (frame : DataFrame) (k i : Z) :
  labels frame = range 0 (len x) -> 0 <= i < len x ->
  scan_inv_any x y frame k i (state_at x y frame k i).
Proof.
  intros Hframe [Hi HiL].
  revert HiL. pattern i. apply natlike_ind; [| |exact Hi].
  - intros _. rewrite state_at_0. apply scan_inv_any_initial.
  - intros j Hj IH HjL. unfold Z.succ in *.
    rewrite state_at_succ by assumption.
    apply scan_inv_any_step; auto. apply IH. lia.
Qed.

Lemma capture_final_inv_any (x y : list Reading) (frame : DataFrame) (k : Z)
  (st : State) (segs : list DataFrame) :
  labels frame = range 0 (len x) -> 2 <= len x ->
  scan_inv_any x y frame k (len x - 1) st ->
  capture_final frame (Some (len x - 1)) st = Ok segs ->
  Forall (seg_ok x y frame) segs
  /\ ForallOrdPairs (apart (k + 1)) segs.
Proof.
  intros Hframe HL [Hm Hstart Hsegs Hpairs Hbound] Hfin.
  destruct st as [rs m0 fl rec]. cbn [results m flat recording] in *.
  unfold capture_final in Hfin. cbn [results m flat recording] in Hfin.
  destruct rec; [destruct (1 <? len x - 1 - m0) eqn:Hspan|];
    injection Hfin as <-; auto.
  assert (labels (slice frame m0 None) = range m0 (len x)) as Hl.
  { rewrite labels_slice, Hframe. apply slice_range_tail; lia. }
  split.
  - apply Forall_app. split; [assumption|].
    constructor; [|constructor].
    exists m0, (len x). repeat split; auto using incl_slice; lia.
  - apply ForallOrdPairs_snoc; [assumption|].
    intros s Hs a b Ha Hb. rewrite Hl in Hb.
    apply In_range in Hb. specialize (Hbound s a Hs Ha). lia.
Qed.

Lemma find_breaks_segments_any (x y : list Reading) (k : Z)
  (segs : list DataFrame) :
  find_breaks x y k = Ok segs ->
  exists frame,
    build_xy_frame x y = Ok frame
    /\ Forall (row_of x y) frame
    /\ Forall (seg_ok x y frame) segs
    /\ ForallOrdPairs (apart (k + 1)) segs.
Proof.
  intros Hfb.
  destruct (find_breaks_Ok_inv x y k segs Hfb) as [Hlen H2].
  destruct (find_breaks_unfold x y k Hlen H2) as (frame & Hb & Hl & Heq).
  rewrite Heq in Hfb.
  exists frame. split; [assumption|]. split.
  - now apply build_xy_frame_rows.
  - apply (capture_final_inv_any x y frame k
             (state_at x y frame k (len x - 1)) segs Hl H2); [|assumption].
    apply state_at_inv_any; auto. lia.
Qed.

(** ** Inputs on which the scan never stops recording *)

Lemma count_flat_mono (x y : list Reading) (lo hi hi' : Z) :
  lo <= hi -> hi <= hi' -> count_flat x y lo hi <= count_flat x y lo hi'.
Proof.
  intros H1 H2. unfold count_flat.
  rewrite (range_app lo hi hi'), filter_app, len_app by assumption.
  pose proof (len_nonneg
                (filter (fun i => is_flat (kind_at x y i)) (range hi hi'))).
  lia.
Qed.

Lemma never_closed_state (x y : list Reading) (frame : DataFrame) (k i : Z) :
  0 <= i ->
  count_flat x y 1 (i + 1) = 0 \/ count_flat x y 1 (i + 1) < k ->
  state_at x y frame k i = mkState [] 0 (count_flat x y 1 (i + 1)) true.
Proof.
  intros Hi. pattern i. apply natlike_ind; [| |exact Hi].
  - intros _. rewrite state_at_0, count_flat_empty by lia. reflexivity.
  - clear i Hi. intros i Hi IH Hfew. unfold Z.succ in *.
    pose proof (count_flat_nonneg x y 1 (i + 1)) as Hnn.
    replace (i + 1 + 1) with ((i + 1) + 1) in * by lia.
    rewrite count_flat_snoc in * by lia.
    rewrite state_at_succ, IH by (try assumption; destruct
      (is_flat (kind_at x y (i + 1))); lia).
    destruct (kind_at x y (i + 1)) eqn:Hkind;
      cbn [is_flat step negb results m flat recording] in *.
    + now rewrite Z.add_0_r.
    + destruct (k <=? count_flat x y 1 (i + 1) + 1) eqn:E; [lia|reflexivity].
    + now rewrite Z.add_0_r.
Qed.

(** ** Flat samples inside the stored segments *)

Lemma results_few_flats (x y : list Reading) (frame : DataFrame) (k i : Z) :
  1 <= k -> labels frame = range 0 (len x) -> 0 <= i < len x ->
  Forall (few_flats x y k) (results (state_at x y frame k i)).
Proof.
  intros Hk Hframe [Hi HiL].
  revert HiL. pattern i. apply natlike_ind; [| |exact Hi].
  - intros _. rewrite state_at_0. constructor.
  - clear i Hi. intros i Hi IH HiL. unfold Z.succ in *.
    specialize (IH ltac:(lia)).
    destruct (state_at_inv x y frame k i Hk Hframe) as [Hm Hflat _ _]; [lia|].
    rewrite state_at_succ by assumption.
    destruct (state_at x y frame k i) as [rs m0 fl rec].
    cbn [results m flat recording] in *.
    destruct (kind_at x y (i + 1));
      cbn [step results m flat recording negb]; try assumption.
    + destruct rec; cbn [negb results m flat recording]; try assumption.
      destruct (k <=? fl + 1) eqn:Hclose; cbn [results]; try assumption.
      destruct (1 <? i + 1 - k - m0) eqn:Hsize; try assumption.
      apply Forall_app. split; [assumption|].
      constructor; [|constructor].
      destruct (Hflat eq_refl) as [Hc Hlt].
      exists m0, (i + 1 - k). split; [lia|]. split.
      * rewrite labels_slice, Hframe. apply slice_range; lia.
      * pose proof (count_flat_mono x y (m0 + 1) (i + 1 - k) (i + 1)). lia.
    + destruct rec; cbn [negb results m flat recording]; assumption.
Qed.

(** ** Properties of the returned segments *)

(** X1: [find_breaks] returns a list exactly when the two series have the
    same number of rows and at least two of them, whatever [max_flats] is;
    on every other input it raises. *)
Theorem find_breaks_returns_iff (x y : list Reading) (k : Z) :
  (exists segs, find_breaks x y k = Ok segs)
  <-> length x = length y /\ 2 <= len x.
Proof.
  split.
  - intros (segs & H). now apply (find_breaks_Ok_inv x y k segs).
  - intros [Hlen H2]. now apply find_breaks_returns.
Qed.

(** X2: every segment [find_breaks] returns has at least two rows, for
    every [max_flats], positive or not. *)
Theorem segments_have_two_rows (x y : list Reading) (k : Z)
  (segs : list DataFrame) :
  find_breaks x y k = Ok segs ->
  Forall (fun s => 2 <= len s) segs.
Proof.
  intros Hfb.
  destruct (find_breaks_segments_any x y k segs Hfb) as (frame & _ & _ & Hs & _).
  eapply Forall_impl; [|exact Hs].
  cbn. intros s (a & b & Ha & Hab & Hb & Hl & _).
  rewrite (len_labels_range s a b) by (auto; lia). lia.
Qed.

Lemma segments_have_two_rows_witness :
  Forall (fun s => 2 <= len s)
    [slice (frame_of stepped stepped) 0 (Some 3);
     slice (frame_of stepped stepped) 7 None].
Proof.
  apply (segments_have_two_rows stepped stepped 3). reflexivity.
Defined.

(** X3: every row of every returned segment is the combined record of the
    sample at the row's label: MJD, time stamp and reading taken from
    [x_data] at that index, and the reading of [y_data] at that index. *)
Theorem segment_rows_are_samples (x y : list Reading) (k : Z)
  (segs : list DataFrame) :
  find_breaks x y k = Ok segs ->
  Forall (Forall (row_of x y)) segs.
Proof.
  intros Hfb.
  destruct (find_breaks_segments_any x y k segs Hfb)
    as (frame & _ & Hrows & Hs & _).
  eapply Forall_impl; [|exact Hs].
  cbn. intros s (a & b & _ & _ & _ & _ & Hincl & _).
  apply Forall_forall. intros r Hr.
  apply (proj1 (Forall_forall _ _) Hrows). now apply Hincl.
Qed.

Lemma segment_rows_are_samples_witness :
  Forall (Forall (row_of stepped stepped))
    [slice (frame_of stepped stepped) 0 (Some 3);
     slice (frame_of stepped stepped) 7 None].
Proof.
  apply (segment_rows_are_samples stepped stepped 3). reflexivity.
Defined.

(** X4: when the series hold no flat sample at all, or fewer than
    [max_flats] of them, the scan never stops recording and a series of at
    least three rows comes back whole, as a single segment.  This covers a
    series whose keys never agree and a threshold above the number of
    rows. *)
Theorem too_few_flats_returns_whole (x y : list Reading) (k : Z) :
  length x = length y -> 3 <= len x ->
  count_flat x y 1 (len x) = 0 \/ count_flat x y 1 (len x) < k ->
  exists frame,
    build_xy_frame x y = Ok frame /\ find_breaks x y k = Ok [frame].
Proof.
  intros Hlen H3 Hfew.
  destruct (find_breaks_unfold x y k Hlen) as (frame & Hb & Hl & ->); [lia|].
  exists frame. split; [assumption|].
  rewrite never_closed_state;
    [|lia|now replace (len x - 1 + 1) with (len x) by lia].
  unfold capture_final. cbn [recording m results].
  destruct (1 <? len x - 1 - 0) eqn:E; [|lia].
  now rewrite slice_whole.
Qed.

Lemma too_few_flats_returns_whole_witness :
  exists frame,
    build_xy_frame (table [5; 5; 5]) (table [1; 1; 1]) = Ok frame
    /\ find_breaks (table [5; 5; 5]) (table [1; 1; 1]) 5 = Ok [frame].
Proof.
  apply (too_few_flats_returns_whole (table [5; 5; 5]) (table [1; 1; 1]) 5);
    [reflexivity | vm_compute; discriminate | right; reflexivity].
Defined.

(** X5: every returned segment starts at the first sample or at an aligned
    sample whose reading changed, for every [max_flats]. *)
Theorem segments_start_at_change (x y : list Reading) (k : Z)
  (segs : list DataFrame) :
  find_breaks x y k = Ok segs ->
  Forall (starts_at_change x y) segs.
Proof.
  intros Hfb.
  destruct (find_breaks_segments_any x y k segs Hfb) as (frame & _ & _ & Hs & _).
  eapply Forall_impl; [|exact Hs].
  cbn. intros s (a & b & Ha & Hab & Hb & Hl & _ & Hst).
  unfold starts_at_change.
  now rewrite (start_index_range s a b) by (auto; lia).
Qed.

Lemma segments_start_at_change_witness :
  Forall (starts_at_change stepped stepped)
    [slice (frame_of stepped stepped) 0 (Some 3);
     slice (frame_of stepped stepped) 7 None].
Proof.
  apply (segments_start_at_change stepped stepped 3). reflexivity.
Defined.

(** X6: of two returned segments, every index of the earlier one is more
    than [max_flats + 1] below every index of the later one: for
    [max_flats >= 0] at least [max_flats + 1] samples are left out between
    two consecutive segments. *)
Theorem segments_are_apart (x y : list Reading) (k : Z)
  (segs : list DataFrame) :
  find_breaks x y k = Ok segs ->
  ForallOrdPairs (apart (k + 1)) segs.
Proof.
  intros Hfb.
  now destruct (find_breaks_segments_any x y k segs Hfb)
    as (frame & _ & _ & _ & Hp).
Qed.

Lemma segments_are_apart_witness :
  ForallOrdPairs (apart (3 + 1))
    [slice (frame_of stepped stepped) 0 (Some 3);
     slice (frame_of stepped stepped) 7 None].
Proof.
  apply (segments_are_apart stepped stepped 3). reflexivity.
Defined.

(** X7: for [max_flats >= 1], every returned segment holds fewer than
    [max_flats] flat samples after its first row. *)
Theorem segments_hold_few_flats (x y : list Reading) (k : Z)
  (segs : list DataFrame) :
  1 <= k -> find_breaks x y k = Ok segs ->
  Forall (few_flats x y k) segs.
Proof.
  intros Hk Hfb.
  destruct (find_breaks_Ok_inv x y k segs Hfb) as [Hlen H2].
  destruct (find_breaks_unfold x y k Hlen H2) as (frame & Hb & Hl & Heq).
  rewrite Heq in Hfb.
  pose proof (results_few_flats x y frame k (len x - 1) Hk Hl) as Hres.
  destruct (state_at_inv x y frame k (len x - 1) Hk Hl) as [Hm Hflat _ _];
    [lia|].
  specialize (Hres ltac:(lia)).
  destruct (state_at x y frame k (len x - 1)) as [rs m0 fl rec].
  unfold capture_final in Hfb. cbn [results m flat recording] in *.
  destruct rec; [destruct (1 <? len x - 1 - m0) eqn:Hspan|];
    injection Hfb as <-; auto.
  apply Forall_app. split; [assumption|].
  constructor; [|constructor].
  destruct (Hflat eq_refl) as [Hc Hlt].
  exists m0, (len x). split; [lia|]. split.
  - rewrite labels_slice, Hl. apply slice_range_tail; lia.
  - replace (len x - 1 + 1) with (len x) in Hc by lia. lia.
Qed.

Lemma segments_hold_few_flats_witness :
  Forall (few_flats stepped stepped 3)
    [slice (frame_of stepped stepped) 0 (Some 3);
     slice (frame_of stepped stepped) 7 None].
Proof.
  apply (segments_hold_few_flats stepped stepped 3); [lia|reflexivity].
Defined.

(** * [download_edb_datafiles] *)

Lemma only_http_errors_tail (world : World) (folder prefix fname : string)
  (rest : list string) (i : nat) :
  only_http_errors world folder prefix (fname :: rest) i ->
  only_http_errors world folder prefix rest (S i).
Proof.
  intros H j f Hj. specialize (H (S j) f Hj).
  now replace (S i + j)%nat with (i + S j)%nat by lia.
Qed.

Lemma requests_print (text : string) (evs : list event) :
  requests (Print text :: evs) = requests evs.
Proof. reflexivity. Qed.

Lemma requests_urlretrieve (url filename : string) (raised : option io_exn)
  (evs : list event) :
  requests (Urlretrieve url filename raised :: evs)
  = (url, filename) :: requests evs.
Proof. reflexivity. Qed.

Lemma download_loop_http_only (world : World) (folder prefix : string)
  (filenames : list string) :
  forall (i : nat) (status : Z),
    only_http_errors world folder prefix filenames i ->
    exists evs,
      download_loop world folder prefix filenames i status
      = (evs, Returns (if any_request_failed evs then 1 else status))
      /\ requests evs
         = map (fun f => (url_of prefix f, target_of folder f)) filenames.
Proof.
  induction filenames as [|fname rest IH]; intros i status Hworld.
  - exists []. split; reflexivity.
  - pose proof (Hworld 0%nat fname eq_refl) as Hreq.
    rewrite Nat.add_0_r in Hreq.
    apply only_http_errors_tail in Hworld.
    cbn [download_loop]. unfold urlretrieve.
    destruct Hreq as [-> | ->].
    + destruct (IH (S i) status Hworld) as (evs & Hrun & Hreqs).
      unfold io_bind, except_HTTPError, print, io_ret.
      cbn [fst snd app]. rewrite Hrun. cbn [fst snd app].
      match goal with |- exists e, (?l, _) = _ /\ _ => exists l end.
      split; [reflexivity|].
      now rewrite ?requests_print, requests_urlretrieve, ?requests_print, Hreqs.
    + destruct (IH (S i) 1 Hworld) as (evs & Hrun & Hreqs).
      unfold io_bind, except_HTTPError, print, io_ret.
      cbn [fst snd app]. rewrite Hrun. cbn [fst snd app].
      replace (if any_request_failed evs then 1 else 1) with 1
        by (now destruct (any_request_failed evs)).
      match goal with |- exists e, (?l, _) = _ /\ _ => exists l end.
      split; [reflexivity|].
      now rewrite ?requests_print, requests_urlretrieve, ?requests_print, Hreqs.
Qed.

(** X8: when the folder can be made and every request either succeeds or
    raises [HTTPError], [download_edb_datafiles] requests every file once,
    in the order given, each from the URL built from [prefix] and the file
    name and into [folder/fname]; it goes on after a failed request, and
    returns 1 if some request failed and 0 otherwise. *)
Theorem download_requests_every_file (world : World)
  (filenames : list string) (folder prefix : string) :
  mkdir_raises world folder = None ->
  only_http_errors world folder prefix filenames 0 ->
  exists evs,
    download_edb_datafiles world filenames folder prefix
    = (Mkdir folder None :: evs,
       Returns (if any_request_failed evs then 1 else 0))
    /\ requests evs
       = map (fun f => (url_of prefix f, target_of folder f)) filenames.
Proof.
  intros Hmk Hworld.
  destruct (download_loop_http_only world folder prefix filenames 0 0 Hworld)
    as (evs & Hrun & Hreqs).
  exists evs. split; [|exact Hreqs].
  unfold download_edb_datafiles, mkdir, io_bind. rewrite Hmk.
  cbn [fst snd app]. now rewrite Hrun.
Qed.

Lemma download_loop_aborts (world : World) (folder prefix : string)
  (before : list string) (fname : string) (after : list string)
  (name : string) :
  forall (i : nat) (status : Z),
    only_http_errors world folder prefix before i ->
    request_raises world (i + length before) (url_of prefix fname)
      (target_of folder fname) = Some (OtherError name) ->
    exists evs,
      download_loop world folder prefix (before ++ fname :: after) i status
      = (evs, Raises (OtherError name))
      /\ requests evs
         = map (fun f => (url_of prefix f, target_of folder f))
             (before ++ [fname]).
Proof.
  induction before as [|f rest IH]; intros i status Hworld Hfail.
  - cbn [length] in Hfail. rewrite Nat.add_0_r in Hfail.
    cbn [app download_loop]. unfold urlretrieve. rewrite Hfail.
    unfold io_bind, except_HTTPError, print, io_ret.
    cbn [fst snd app]. eexists. split; reflexivity.
  - pose proof (Hworld 0%nat f eq_refl) as Hreq.
    rewrite Nat.add_0_r in Hreq.
    apply only_http_errors_tail in Hworld.
    cbn [length] in Hfail.
    replace (i + S (length rest))%nat with (S i + length rest)%nat in Hfail
      by lia.
    cbn [app download_loop]. unfold urlretrieve.
    destruct Hreq as [-> | ->].
    + destruct (IH (S i) status Hworld Hfail) as (evs & Hrun & Hreqs).
      unfold io_bind, except_HTTPError, print, io_ret.
      cbn [fst snd app]. rewrite Hrun. cbn [fst snd app].
      eexists. split; [reflexivity|].
      now rewrite ?requests_print, requests_urlretrieve, ?requests_print, Hreqs.
    + destruct (IH (S i) 1 Hworld Hfail) as (evs & Hrun & Hreqs).
      unfold io_bind, except_HTTPError, print, io_ret.
      cbn [fst snd app]. rewrite Hrun. cbn [fst snd app].
      eexists. split; [reflexivity|].
      now rewrite ?requests_print, requests_urlretrieve, ?requests_print, Hreqs.
Qed.

(** X9: an exception other than [HTTPError] is not caught: when the request
    for a file raises one, after requests that succeeded or raised
    [HTTPError], the call raises that exception, no status is returned, and
    the files listed after it are never requested. *)
Theorem download_aborts_on_other_error (world : World)
  (before : list string) (fname : string) (after : list string)
  (folder prefix name : string) :
  mkdir_raises world folder = None ->
  only_http_errors world folder prefix before 0 ->
  request_raises world (length before) (url_of prefix fname)
    (target_of folder fname) = Some (OtherError name) ->
  exists evs,
    download_edb_datafiles world (before ++ fname :: after) folder prefix
    = (Mkdir folder None :: evs, Raises (OtherError name))
    /\ requests evs
       = map (fun f => (url_of prefix f, target_of folder f))
           (before ++ [fname]).
Proof.
  intros Hmk Hworld Hfail.
  destruct (download_loop_aborts world folder prefix before fname after name
              0 0 Hworld Hfail) as (evs & Hrun & Hreqs).
  exists evs. split; [|exact Hreqs].
  unfold download_edb_datafiles, mkdir, io_bind. rewrite Hmk.
  cbn [fst snd app]. now rewrite Hrun.
Qed.

Lemma download_requests_every_file_witness :
  exists evs,
    download_edb_datafiles second_request_404
      ["a.csv"%string; "b.csv"%string; "c.csv"%string] "edb-data" ""
    = (Mkdir "edb-data" None :: evs,
       Returns (if any_request_failed evs then 1 else 0))
    /\ requests evs
       = map (fun f => (url_of "" f, target_of "edb-data" f))
           ["a.csv"%string; "b.csv"%string; "c.csv"%string].
Proof.
  apply (download_requests_every_file second_request_404
           ["a.csv"%string; "b.csv"%string; "c.csv"%string] "edb-data" "").
  - reflexivity.
  - intros j f _. destruct j as [|[|j]]; cbn; auto.
Defined.

Lemma download_aborts_on_other_error_witness :
  exists evs,
    download_edb_datafiles second_request_unreachable
      (["a.csv"%string] ++ "b.csv"%string :: ["c.csv"%string]) "edb-data" ""
    = (Mkdir "edb-data" None :: evs, Raises (OtherError "URLError"))
    /\ requests evs
       = map (fun f => (url_of "" f, target_of "edb-data" f))
           (["a.csv"%string] ++ ["b.csv"%string]).
Proof.
  apply (download_aborts_on_other_error second_request_unreachable
           ["a.csv"%string] "b.csv" ["c.csv"%string] "edb-data" "" "URLError").
  - reflexivity.
  - intros j f Hj. destruct j as [|j]; [cbn; auto|].
    destruct j; discriminate Hj.
  - reflexivity.
Defined.

(** * The colour-bar ticks of [plot_x_v_y_color] *)

Lemma len_dict_set (d : list (option Z * option string)) (k : option Z)
  (v : option string) :
  len d <= len (dict_set d k v) <= len d + 1 /\ 1 <= len (dict_set d k v).
Proof.
  induction d as [|[k' v'] d IH]; cbn [dict_set].
  - unfold len. cbn. lia.
  - destruct (key_eqb k' k); unfold len in *; cbn [length] in *; lia.
Qed.

Lemma tick_dict_from_ok (data : DataFrame) (indices : list Z) :
  (forall i, In i indices -> 0 <= i < len data) ->
  forall d,
    exists ticks,
      tick_dict_from data indices d = Ok ticks
      /\ len d <= len ticks <= len d + len indices
      /\ (indices <> [] -> 1 <= len ticks).
Proof.
  induction indices as [|x rest IH]; intros Hvalid d.
  - exists d. split; [reflexivity|]. split; [unfold len; cbn; lia|congruence].
  - cbn [tick_dict_from].
    rewrite (getitem_map row_MJD data (nan_row 0)),
      (getitem_map timestamp data (nan_row 0))
      by (apply Hvalid; now left).
    cbn [bind].
    set (d' := dict_set d _ _).
    destruct (IH (fun i Hi => Hvalid i (or_intror Hi)) d')
      as (ticks & Hrun & Hlen & _).
    exists ticks. split; [exact Hrun|].
    pose proof (len_dict_set d
                  (row_MJD (nth (Z.to_nat x) data (nan_row 0)))
                  (timestamp (nth (Z.to_nat x) data (nan_row 0)))) as Hd.
    fold d' in Hd.
    assert (len (x :: rest) = 1 + len rest) as -> by (unfold len; cbn [length]; lia).
    split; [lia|]. intros _. lia.
Qed.

Lemma tick_indices_shape (data : DataFrame) :
  10 <= len data ->
  exists count,
    10 <= count < 20
    /\ 1 <= len data / 10
    /\ tick_indices data
       = Ok (map (fun j => 0 + Z.of_nat j * (len data / 10))
                 (seq 0 (Z.to_nat count)))
    /\ forall i,
         In i (map (fun j => 0 + Z.of_nat j * (len data / 10))
                   (seq 0 (Z.to_nat count))) ->
         0 <= i < len data /\ i mod (len data / 10) = 0.
Proof.
  intros H.
  set (s := len data / 10).
  assert (1 <= s) as Hs by (apply Z.div_le_lower_bound; lia).
  assert (10 * s <= len data) as Hlo by (apply Z.mul_div_le; lia).
  assert (len data < 10 * Z.succ s) as Hhi by (apply Z.mul_succ_div_gt; lia).
  set (count := (len data - 0 + s - 1) / s).
  assert (10 <= count) as Hc1 by (apply Z.div_le_lower_bound; lia).
  assert (count < 20) as Hc2 by (apply Z.div_lt_upper_bound; lia).
  assert (s * count <= len data - 0 + s - 1) as Hmul
    by (apply Z.mul_div_le; lia).
  exists count. split; [lia|]. split; [exact Hs|]. split.
  - unfold tick_indices, range_step, n_ticks. rewrite len_map. fold s.
    destruct (s =? 0) eqn:E0; [lia|]. destruct (0 <? s) eqn:E1; [|lia].
    reflexivity.
  - intros i Hi. apply in_map_iff in Hi. destruct Hi as (j & <- & Hj).
    apply in_seq in Hj. split; [nia|].
    rewrite Z.add_0_l. apply Z.mod_mul. lia.
Qed.

(** X10: on a table of fewer than ten rows the step [int(len(mjd)/n_ticks)]
    is 0, so building the tick indices raises [ValueError] and no tick
    table is made. *)
Theorem tick_dict_needs_ten_rows (data : DataFrame) :
  len data < 10 ->
  tick_indices data = Raise ValueError
  /\ tick_dict data = Raise ValueError.
Proof.
  intros H. pose proof (len_nonneg data) as Hnn.
  assert (tick_indices data = Raise ValueError) as Hidx.
  { unfold tick_indices, range_step, n_ticks. rewrite len_map.
    now rewrite Z.div_small by lia. }
  split; [exact Hidx|]. unfold tick_dict. now rewrite Hidx.
Qed.

Lemma tick_dict_needs_ten_rows_witness :
  tick_indices (plain_frame 4) = Raise ValueError
  /\ tick_dict (plain_frame 4) = Raise ValueError.
Proof.
  apply (tick_dict_needs_ten_rows (plain_frame 4)). reflexivity.
Defined.

(** X11: on a table of at least ten rows the tick indices are the multiples
    of [len / 10] below the length, starting at 0: between 10 and 19 of
    them, each a valid row position; the tick table is then built without
    an [IndexError] and holds at least one and at most that many entries. *)
Theorem tick_indices_ten_to_nineteen (data : DataFrame) :
  10 <= len data ->
  exists indices ticks,
    tick_indices data = Ok indices
    /\ tick_dict data = Ok ticks
    /\ 10 <= len indices <= 19
    /\ hd_error indices = Some 0
    /\ (forall i, In i indices ->
          0 <= i < len data /\ i mod (len data / 10) = 0)
    /\ 1 <= len ticks <= len indices.
Proof.
  intros H.
  destruct (tick_indices_shape data H) as (count & Hc & Hs & Hidx & Hval).
  set (indices := map (fun j => 0 + Z.of_nat j * (len data / 10))
                      (seq 0 (Z.to_nat count))) in *.
  destruct (tick_dict_from_ok data indices (fun i Hi => proj1 (Hval i Hi)) [])
    as (ticks & Hrun & Hlen & Hne).
  assert (len indices = count) as Hcount.
  { unfold indices, len. rewrite length_map, length_seq. lia. }
  exists indices, ticks. split; [exact Hidx|]. split.
  { unfold tick_dict. now rewrite Hidx. }
  split; [lia|]. split.
  { unfold indices. replace (Z.to_nat count) with (S (Z.to_nat (count - 1)))
      by lia. reflexivity. }
  split; [exact Hval|].
  change (len (@nil (option Z * option string))) with 0 in Hlen.
  split; [|lia]. apply Hne. intros Hnil.
  rewrite Hnil in Hcount. change (len (@nil Z)) with 0 in Hcount. lia.
Qed.

Lemma tick_indices_ten_to_nineteen_witness :
  exists indices ticks,
    tick_indices (plain_frame 19) = Ok indices
    /\ tick_dict (plain_frame 19) = Ok ticks
    /\ 10 <= len indices <= 19
    /\ hd_error indices = Some 0
    /\ (forall i, In i indices ->
          0 <= i < len (plain_frame 19)
          /\ i mod (len (plain_frame 19) / 10) = 0)
    /\ 1 <= len ticks <= len indices.
Proof.
  apply (tick_indices_ten_to_nineteen (plain_frame 19)).
  vm_compute. discriminate.
Defined.

Lemma dict_set_fresh (d : list (option Z * option string)) (k : option Z)
  (v : option string) :
  (forall k' v', In (k', v') d -> key_eqb k' k = false) ->
  dict_set d k v = d ++ [(k, v)].
Proof.
  induction d as [|[k' v'] d IH]; intros Hfresh; cbn [dict_set app].
  - reflexivity.
  - rewrite (Hfresh k' v') by now left.
    f_equal. apply IH. intros k'' v'' Hin. apply (Hfresh k'' v''). now right.
Qed.

Lemma multiples_sorted (s : Z) (a n : nat) :
  1 <= s ->
  StronglySorted Z.lt (map (fun j => 0 + Z.of_nat j * s) (seq a n)).
Proof.
  intros Hs. revert a. induction n as [|n IH]; intros a; cbn [seq map].
  - constructor.
  - constructor; [apply IH|].
    apply Forall_forall. intros i Hi. apply in_map_iff in Hi.
    destruct Hi as (j & <- & Hj). apply in_seq in Hj. nia.
Qed.

Lemma tick_dict_from_distinct (data : DataFrame) (indices : list Z) :
  (forall i j, 0 <= i -> i < j -> j < len data ->
     key_eqb (row_MJD (row_at data i)) (row_MJD (row_at data j)) = false) ->
  (forall i, In i indices -> 0 <= i < len data) ->
  StronglySorted Z.lt indices ->
  forall d,
    (forall k' v' i, In (k', v') d -> In i indices ->
       key_eqb k' (row_MJD (row_at data i)) = false) ->
    tick_dict_from data indices d
    = Ok (d ++ map (fun i => (row_MJD (row_at data i),
                              timestamp (row_at data i))) indices).
Proof.
  intros Hdist. induction indices as [|x rest IH]; intros Hvalid Hsorted d Hd.
  - cbn. now rewrite app_nil_r.
  - cbn [tick_dict_from map].
    rewrite (getitem_map row_MJD data (nan_row 0)),
      (getitem_map timestamp data (nan_row 0))
      by (apply Hvalid; now left).
    cbn [bind]. fold (row_at data x).
    rewrite dict_set_fresh by (intros k' v' Hin; apply (Hd k' v' x Hin);
                               now left).
    apply StronglySorted_inv in Hsorted. destruct Hsorted as [Hrest Hlt].
    rewrite IH; auto.
    + now rewrite <- app_assoc.
    + intros i Hi. apply Hvalid. now right.
    + intros k' v' i Hin Hi. apply in_app_or in Hin.
      destruct Hin as [Hin|[Hin|[]]].
      * apply (Hd k' v' i Hin). now right.
      * injection Hin as <- <-.
        pose proof (proj1 (Forall_forall _ _) Hlt i Hi) as Hxi.
        apply Hdist; try assumption.
        -- apply Hvalid. now left.
        -- apply Hvalid. now right.
Qed.

(** X12: on a table of at least ten rows whose MJD keys are pairwise
    distinct, the tick table has one entry per tick index, in order, and
    each entry maps the MJD of the row at that index to the time stamp of
    the same row. *)
Theorem tick_dict_labels_rows (data : DataFrame) :
  10 <= len data ->
  keys_distinct data = true ->
  exists indices,
    tick_indices data = Ok indices
    /\ tick_dict data
       = Ok (map (fun i => (row_MJD (row_at data i),
                            timestamp (row_at data i))) indices).
Proof.
  intros H Hkeys.
  destruct (tick_indices_shape data H) as (count & Hc & Hs & Hidx & Hval).
  eexists. split; [exact Hidx|].
  unfold tick_dict. rewrite Hidx. cbn [bind].
  rewrite tick_dict_from_distinct; [reflexivity| | | |].
  - intros i j Hi Hij Hj. apply negb_true_iff.
    unfold keys_distinct in Hkeys.
    pose proof (proj1 (forallb_range _ _ _) Hkeys j ltac:(lia)) as Hrow.
    cbn beta in Hrow.
    apply (proj1 (forallb_range _ _ _) Hrow i). lia.
  - intros i Hi. now apply Hval.
  - now apply multiples_sorted.
  - intros k' v' i [].
Qed.

Lemma tick_dict_labels_rows_witness :
  exists indices,
    tick_indices (plain_frame 19) = Ok indices
    /\ tick_dict (plain_frame 19)
       = Ok (map (fun i => (row_MJD (row_at (plain_frame 19) i),
                            timestamp (row_at (plain_frame 19) i))) indices).
Proof.
  apply (tick_dict_labels_rows (plain_frame 19)).
  - vm_compute. discriminate.
  - reflexivity.
Defined.
